(** * The estimator lifecycle of [aeon.base._base.BaseEstimator]

    A shallow embedding of the tag, reset, clone, fitted-state and
    serialization bookkeeping of [BaseEstimator], and the properties of it
    that the specification states.

    Layout:
    - Python strings, values and exceptions;
    - classes and instances, attribute access;
    - the methods of [BaseEstimator], in the order of the source file;
    - the collaborators the methods call ([sklearn.base.clone],
      [get_params], [pickle]), each in a module of its own;
    - the store-level model (module [Store]) for the properties that depend
      on object identity and in-place mutation;
    - the theorems. *)

From Stdlib Require Import ZArith Lia Ascii String.
From stdpp Require Import gmap strings list fin_maps fin_sets.
From stdpp Require Import pretty.

Set Warnings "-register-all".
Open Scope string_scope.

(* ===================================================================== *)
(** ** Python strings *)
(* ===================================================================== *)

Definition is_underscore (a : ascii) : bool := bool_decide (a = "_"%char).

(** [s.startswith(p)] *)
Fixpoint startswith (p s : string) : bool :=
  match p, s with
  | EmptyString, _ => true
  | String a p', String b s' => bool_decide (a = b) && startswith p' s'
  | String _ _, EmptyString => false
  end.

(** [p in s] for strings *)
Fixpoint str_contains (p s : string) : bool :=
  startswith p s ||
  match s with
  | EmptyString => false
  | String _ s' => str_contains p s'
  end.

(** [s.endswith("_")] *)
Fixpoint endswith_underscore (s : string) : bool :=
  match s with
  | EmptyString => false
  | String a EmptyString => is_underscore a
  | String _ s' => endswith_underscore s'
  end.

(** [s[:-1]] *)
Fixpoint drop_last (s : string) : string :=
  match s with
  | EmptyString => EmptyString
  | String _ EmptyString => EmptyString
  | String a s' => String a (drop_last s')
  end.

(** The local helper [sh] of [get_fitted_params]:
    [if x.endswith("_"): return sh(x[:-1]) else: return x].
    Every call shortens [x] by one character, so [length x] calls suffice. *)
Fixpoint sh_rec (n : nat) (x : string) : string :=
  match n with
  | O => x
  | S n' => if endswith_underscore x then sh_rec n' (drop_last x) else x
  end.

Definition sh (x : string) : string := sh_rec (String.length x) x.

(** [f"{sh(c)}__{k}"] *)
Definition nested_key (c k : string) : string := sh c +:+ "__" +:+ k.

(* ===================================================================== *)
(** ** Python values *)
(* ===================================================================== *)

(** How a class relates to the two estimator base classes:
    [isinstance(x, aeon BaseEstimator)], only
    [isinstance(x, sklearn BaseEstimator)], or neither. *)
Inductive class_kind := AeonEstimator | SklearnEstimator | PlainObject.

#[global] Instance class_kind_eq_dec : EqDecision class_kind.
Proof. solve_decision. Defined.

(** What the methods of [BaseEstimator] read off [type(self)].

    - [cname]: [__name__];
    - [kind]: see [class_kind];
    - [mro_tags]: one entry per class of [inspect.getmro(cls)], most
      specific first, holding what [parent_class._tags] evaluates to, and
      [None] where [hasattr(parent_class, "_tags")] is false;
    - [cls_attr_names]: the names [dir(type(self))] lists (methods,
      properties, [_tags], dunder names). Data attributes live on
      instances; a class-level attribute is read back as an opaque value;
    - [init_params]: the signature of [__init__] without [self], each
      parameter with its default;
    - [init_extra]: the attributes a constructor assigns besides its
      parameters and besides what [BaseEstimator.__init__] assigns
      (such as [history] in [EncoderRegressor.__init__]). *)
Record pyclass (V : Type) := PyClass {
  cname : string;
  kind : class_kind;
  mro_tags : list (option (gmap string V));
  cls_attr_names : list string;
  init_params : list (string * V);
  init_extra : list (string * V)
}.
Arguments PyClass {V}.
Arguments cname {V}.
Arguments kind {V}.
Arguments mro_tags {V}.
Arguments cls_attr_names {V}.
Arguments init_params {V}.
Arguments init_extra {V}.

(** Values are compared by structure at this level; an object is its class
    and its instance dictionary ([vars(obj)]). Dictionaries have string
    keys, as tag and parameter mappings do. *)
Inductive value :=
| VNone
| VBool (b : bool)
| VInt (n : Z)
| VStr (s : string)
| VList (xs : list value)
| VDict (d : gmap string value)
| VObj (c : pyclass value) (a : gmap string value)
| VOpaque (name : string).

(** [bool(v)] *)
Definition truthy (v : value) : bool :=
  match v with
  | VNone => false
  | VBool b => b
  | VInt n => negb (n =? 0)%Z
  | VStr s => negb (bool_decide (s = ""))
  | VList xs => negb (bool_decide (length xs = 0))
  | VDict d => negb (bool_decide (size d = 0))
  | VObj _ _ => true
  | VOpaque _ => true
  end.

(** [copy.deepcopy]: rebuilds every container and every instance
    dictionary. Without identity a rebuilt value is the value itself
    ([deepcopy_id]); the store-level model below keeps the identities. *)
Fixpoint deepcopy (v : value) : value :=
  match v with
  | VList xs => VList (deepcopy <$> xs)
  | VDict d => VDict (deepcopy <$> d)
  | VObj c a => VObj c (deepcopy <$> a)
  | _ => v
  end.

(** Nesting depth, the measure for induction over values. *)
Fixpoint depth (v : value) : nat :=
  match v with
  | VList xs => S (foldr (λ x n, depth x `max` n) 0 xs)
  | VDict d => S (map_fold (λ _ x n, depth x `max` n) 0 d)
  | VObj _ a => S (map_fold (λ _ x n, depth x `max` n) 0 a)
  | _ => 0
  end.

Definition map_depth (m : gmap string value) : nat :=
  map_fold (λ _ x n, depth x `max` n) 0 m.

(* ===================================================================== *)
(** ** Exceptions and results *)
(* ===================================================================== *)

(** The exceptions the embedded code raises, with their messages. *)
Inductive exn :=
| TypeError (msg : string)
| ValueError (msg : string)
| AttributeError (msg : string)
| RuntimeError (msg : string)
| NotFittedError (msg : string)
| PicklingError (msg : string)
| UnpicklingError (msg : string).

(** The exception classes involved, and Python's subclass relation on
    them. [NotFittedError] is declared in scikit-learn as
    [class NotFittedError(ValueError, AttributeError)]. *)
Inductive exn_class :=
| CException | CLookupError | CKeyError | CIndexError
| CTypeError | CValueError | CAttributeError | CRuntimeError
| CNotFittedError | CPickleError | CPicklingError | CUnpicklingError.

Definition class_of_exn (e : exn) : exn_class :=
  match e with
  | TypeError _ => CTypeError
  | ValueError _ => CValueError
  | AttributeError _ => CAttributeError
  | RuntimeError _ => CRuntimeError
  | NotFittedError _ => CNotFittedError
  | PicklingError _ => CPicklingError
  | UnpicklingError _ => CUnpicklingError
  end.

(** [issubclass(c, d)] *)
Definition exn_subclass (c d : exn_class) : bool :=
  match c, d with
  | _, CException => true
  | CLookupError, CLookupError => true
  | CKeyError, (CKeyError | CLookupError) => true
  | CIndexError, (CIndexError | CLookupError) => true
  | CTypeError, CTypeError => true
  | CValueError, CValueError => true
  | CAttributeError, CAttributeError => true
  | CRuntimeError, CRuntimeError => true
  | CNotFittedError, (CNotFittedError | CValueError | CAttributeError) => true
  | CPickleError, CPickleError => true
  | CPicklingError, (CPicklingError | CPickleError) => true
  | CUnpicklingError, (CUnpicklingError | CPickleError) => true
  | _, _ => false
  end.

(** [isinstance(e, d)] for a raised exception *)
Definition exn_isinstance (e : exn) (d : exn_class) : bool :=
  exn_subclass (class_of_exn e) d.

Definition exn_msg (e : exn) : string :=
  match e with
  | TypeError m | ValueError m | AttributeError m
  | RuntimeError m | NotFittedError m
  | PicklingError m | UnpicklingError m => m
  end.

Inductive result (A : Type) :=
| Ok (a : A)
| Raise (e : exn).
Arguments Ok {A} a.
Arguments Raise {A} e.

(** Sequencing: an exception raised by [m] propagates. *)
Definition bind {A B} (m : result A) (f : A → result B) : result B :=
  match m with Ok a => f a | Raise e => Raise e end.

Notation "'let*' x ':=' m 'in' k" := (bind m (λ x, k))
  (at level 10, x name, m at level 100, k at level 200).
Notation "'let*' ' p ':=' m 'in' k" := (bind m (λ p, k))
  (at level 10, p pattern, m at level 100, k at level 200).

Definition is_ok {A} (r : result A) : bool :=
  match r with Ok _ => true | Raise _ => false end.

(* ===================================================================== *)
(** ** Instances and attribute access *)
(* ===================================================================== *)

Record estimator := Estimator {
  klass : pyclass value;          (* type(self) *)
  vars : gmap string value        (* vars(self), the instance dictionary *)
}.

Definition to_value (e : estimator) : value := VObj (klass e) (vars e).

(** [isinstance(v, BaseEstimator)], the aeon class *)
Definition is_aeon_estimator (v : value) : bool :=
  match v with
  | VObj c _ => bool_decide (kind c = AeonEstimator)
  | _ => false
  end.

(** [isinstance(v, _BaseEstimator)], the scikit-learn class, of which the
    aeon class is a subclass *)
Definition is_sklearn_estimator (v : value) : bool :=
  match v with
  | VObj c _ => bool_decide (kind c ≠ PlainObject)
  | _ => false
  end.

(** [getattr(self, k)]: the instance dictionary first, then the class. *)
Definition getattr (e : estimator) (k : string) : result value :=
  match vars e !! k with
  | Some v => Ok v
  | None =>
      if bool_decide (k ∈ cls_attr_names (klass e)) then Ok (VOpaque k)
      else Raise (AttributeError k)
  end.

Definition hasattr (e : estimator) (k : string) : bool := is_ok (getattr e k).

(** [self.k = v] *)
Definition setattr (e : estimator) (k : string) (v : value) : estimator :=
  Estimator (klass e) (<[k := v]> (vars e)).

(** [delattr(self, k)] for an instance attribute *)
Definition delattr (e : estimator) (k : string) : estimator :=
  Estimator (klass e) (delete k (vars e)).

(** [dir(type(self))] and [dir(self)], as sets of names *)
Definition dir_type (c : pyclass value) : gset string :=
  list_to_set (cls_attr_names c).

Definition dir_self (e : estimator) : gset string :=
  dom (vars e) ∪ dir_type (klass e).

(* ===================================================================== *)
(** ** [BaseEstimator]: tags *)
(* ===================================================================== *)

(** The class attribute [BaseEstimator._tags] *)
Definition BaseEstimator_tags : gmap string value :=
  list_to_map
    [ ("python_version", VNone);
      ("python_dependencies", VNone);
      ("cant-pickle", VBool false);
      ("non-deterministic", VBool false);
      ("algorithm_type", VNone);
      ("capability:missing_values", VBool false);
      ("capability:multithreading", VBool false) ].

(** [BaseEstimator.__init__] *)
Definition BaseEstimator_init (e : estimator) : estimator :=
  let e := setattr e "_is_fitted" (VBool false) in
  let e := setattr e "_tags_dynamic" (VDict ∅) in
  e.

(** [tuple[:-2]] *)
Definition drop_last_two {A} (l : list A) : list A := take (length l - 2) l.

(** [collected_tags.update(more_tags)]: the entries of [more_tags] win. *)
Definition dict_update (collected more : gmap string value)
  : gmap string value := more ∪ collected.

(** The loop of [get_class_tags] over
    [reversed(inspect.getmro(cls)[:-2])]. *)
Definition collect_tags (parents : list (option (gmap string value)))
  : gmap string value :=
  foldl (λ collected_tags parent_class,
           match parent_class with
           | Some more_tags => dict_update collected_tags more_tags
           | None => collected_tags
           end) ∅ parents.

Definition get_class_tags (c : pyclass value) : gmap string value :=
  let collected_tags := collect_tags (reverse (drop_last_two (mro_tags c))) in
  deepcopy <$> collected_tags.

Definition tag_not_found (tag_name : string) : string :=
  "Tag with name " +:+ tag_name +:+ " could not be found.".

(** The common tail of [get_class_tag] and [get_tag]. *)
Definition lookup_tag (collected_tags : gmap string value)
    (tag_name : string) (tag_value_default : value) (raise_error : bool)
  : result value :=
  let tag_value := default tag_value_default (collected_tags !! tag_name) in
  if raise_error && bool_decide (tag_name ∉ dom collected_tags)
  then Raise (ValueError (tag_not_found tag_name))
  else Ok tag_value.

Definition get_class_tag (c : pyclass value) (tag_name : string)
    (tag_value_default : value) (raise_error : bool) : result value :=
  let collected_tags := get_class_tags c in
  lookup_tag collected_tags tag_name tag_value_default raise_error.

(** The defaults of the keyword arguments of the two lookups. *)
Definition get_class_tag_raise_error_default : bool := false.
Definition get_tag_raise_error_default : bool := true.
Definition tag_value_default_default : value := VNone.

(** The calls that pass the tag name only. *)
Definition get_class_tag_by_name (c : pyclass value) (tag_name : string)
  : result value :=
  get_class_tag c tag_name tag_value_default_default
    get_class_tag_raise_error_default.

(** [collected_tags.update(other)] for a value read off an attribute:
    the base class only ever stores a [dict] there; any other value is
    taken to make the call fail. *)
Definition dict_update_value (collected : gmap string value) (other : value)
  : result (gmap string value) :=
  match other with
  | VDict more => Ok (dict_update collected more)
  | _ => Raise (TypeError "object is not a mapping")
  end.

Definition get_tags (e : estimator) : result (gmap string value) :=
  let collected_tags := get_class_tags (klass e) in
  let* collected_tags :=
    (if hasattr e "_tags_dynamic"
     then let* d := getattr e "_tags_dynamic" in
          dict_update_value collected_tags d
     else Ok collected_tags) in
  Ok (deepcopy <$> collected_tags).

Definition get_tag (e : estimator) (tag_name : string)
    (tag_value_default : value) (raise_error : bool) : result value :=
  let* collected_tags := get_tags e in
  lookup_tag collected_tags tag_name tag_value_default raise_error.

Definition get_tag_by_name (e : estimator) (tag_name : string)
  : result value :=
  get_tag e tag_name tag_value_default_default get_tag_raise_error_default.

(** [set_tags], called with the keyword arguments [tag_dict];
    [self._tags_dynamic.update] exists on a [dict] only. *)
Definition set_tags (e : estimator) (tag_dict : gmap string value)
  : result estimator :=
  let tag_update := deepcopy <$> tag_dict in
  if hasattr e "_tags_dynamic"
  then
    let* d := getattr e "_tags_dynamic" in
    match d with
    | VDict dynamic =>
        Ok (setattr e "_tags_dynamic" (VDict (dict_update dynamic tag_update)))
    | _ => Raise (AttributeError "update")
    end
  else Ok (setattr e "_tags_dynamic" (VDict tag_update)).

(* ===================================================================== *)
(** ** Collaborator: scikit-learn's parameter introspection and [clone] *)
(* ===================================================================== *)

(** [sklearn.base.BaseEstimator.get_params] and [sklearn.base.clone] are
    not part of the repository; they are embedded after scikit-learn's
    documented behaviour, which the docstrings of [reset] and [clone]
    restate: the class called on the keyword arguments
    [self.get_params(deep=False)]. *)

(** Sequencing of the results held in a list or a mapping. *)
Fixpoint list_sequence {A} (l : list (result A)) : result (list A) :=
  match l with
  | [] => Ok []
  | r :: rest =>
      let* x := r in
      let* xs := list_sequence rest in
      Ok (x :: xs)
  end.

Definition map_sequence {A} (m : gmap string (result A))
  : result (gmap string A) :=
  map_fold (λ k r acc,
              let* acc := acc in
              let* x := r in
              Ok (<[k := x]> acc)) (Ok ∅) m.

(** The constructor convention scikit-learn and aeon require of every
    estimator class: [__init__] stores each argument under its own name,
    assigns the further attributes of the class, and the chain of
    [super().__init__()] calls ends in [BaseEstimator.__init__]. *)
Definition store_params (c : pyclass value) (params : gmap string value)
    (e : estimator) : estimator :=
  foldl (λ e p, setattr e p.1 (default p.2 (params !! p.1))) e (init_params c).

Definition store_extra (c : pyclass value) (e : estimator) : estimator :=
  foldl (λ e p, setattr e p.1 p.2) e (init_extra c).

(** [self.__init__] called on the keyword arguments [params] *)
Definition init (e : estimator) (params : gmap string value) : estimator :=
  let e := store_params (klass e) params e in
  let e := store_extra (klass e) e in
  BaseEstimator_init e.

Definition param_names (c : pyclass value) : list string := (init_params c).*1.

(** [cls] called on the keyword arguments [kwargs]: an unexpected keyword argument is a [TypeError]; a
    missing one takes its default. *)
Definition construct (c : pyclass value) (kwargs : gmap string value)
  : result estimator :=
  if bool_decide (dom kwargs ⊆ list_to_set (param_names c))
  then Ok (init (Estimator c ∅) kwargs)
  else Raise (TypeError "__init__() got an unexpected keyword argument").

Module sklearn.

(** [get_params(deep=False)]: [getattr(self, key)] for every name of
    the signature of [__init__]. *)
(** The loop [for key in names: out[key] = read(key)], which stops at
    the first exception. *)
Fixpoint gather_from (read : string → result value)
    (names : list string) (out : gmap string value)
  : result (gmap string value) :=
  match names with
  | [] => Ok out
  | key :: rest =>
      let* value := read key in
      gather_from read rest (<[key := value]> out)
  end.

Definition gather (read : string → result value) (names : list string)
  : result (gmap string value) :=
  gather_from read names ∅.

Definition get_params_shallow (e : estimator)
  : result (gmap string value) :=
  gather (getattr e) (param_names (klass e)).

(** [out.update((key + "__" + k, val) for k, val in deep_items)] *)
Definition prefix_keys (key : string) (deep_items : gmap string value)
  : gmap string value :=
  kmap (λ k, key +:+ "__" +:+ k) deep_items.

(** The body of the loop of [get_params(deep=True)]; [nested] holds
    what [value.get_params()] returns for the instance attributes. *)
Definition deep_step (read : string → result value)
    (nested : gmap string (result (gmap string value)))
    (out : result (gmap string value)) (key : string)
  : result (gmap string value) :=
  let* out := out in
  let* value := read key in
  let* out :=
    (if is_sklearn_estimator value
     then
       let* deep_items := default (Ok ∅) (nested !! key) in
       Ok (dict_update out (prefix_keys key deep_items))
     else Ok out) in
  Ok (<[key := value]> out).

(** [get_params(deep=True)] on a value that has the method. The
    recursive calls are taken on every attribute at once and looked up by
    name afterwards, which is how the recursion stays structural. *)
Fixpoint get_params_deep (v : value) : result (gmap string value) :=
  match v with
  | VObj c a =>
      foldl (deep_step (getattr (Estimator c a)) (get_params_deep <$> a))
            (Ok ∅) (param_names c)
  | _ => Raise (AttributeError "get_params")
  end.

Definition get_params (deep : bool) (e : estimator)
  : result (gmap string value) :=
  if deep then get_params_deep (to_value e) else get_params_shallow e.

(** [param1 is param2] in the sanity check of [clone]: the value read
    back is the object passed in unless a later assignment of the
    constructor replaced it, and then only the singletons [None],
    [True], [False] can still be the same object. *)
Definition later_assigned (c : pyclass value) : list string :=
  (init_extra c).*1 ++ ["_is_fitted"; "_tags_dynamic"].

Definition same_singleton (v w : value) : bool :=
  match v, w with
  | VNone, VNone => true
  | VBool a, VBool b => bool_decide (a = b)
  | _, _ => false
  end.

Definition is_same_object (c : pyclass value) (name : string)
    (param1 param2 : value) : bool :=
  bool_decide (name ∉ later_assigned c) || same_singleton param1 param2.

(** [for name in names: body(name)], which stops at the first
    exception. *)
Fixpoint for_each (body : string → result unit) (names : list string)
  : result unit :=
  match names with
  | [] => Ok tt
  | name :: rest => let* _ := body name in for_each body rest
  end.

Definition check_param (new_object : estimator)
    (new_object_params : gmap string value) (name : string)
  : result unit :=
  match new_object_params !! name, vars new_object !! name with
  | Some param1, Some param2 =>
      if is_same_object (klass new_object) name param1 param2
      then Ok tt
      else Raise (RuntimeError
             ("Cannot clone object, as the constructor either does "
              +:+ "not set or modifies parameter " +:+ name))
  | _, _ => Ok tt
  end.

Definition sanity_check (new_object : estimator)
    (new_object_params : gmap string value) : result unit :=
  for_each (check_param new_object new_object_params)
           (param_names (klass new_object)).

(** [clone(estimator, safe=safe)]. The clones of the parameters,
    [clone(param, safe=False)], are tabulated for every attribute and
    read by name; a parameter found on the class only is an opaque
    value, which [deepcopy] returns as it is. *)
Fixpoint clone (safe : bool) (v : value) : result value :=
  match v with
  | VDict d =>
      let* d' := map_sequence (clone safe <$> d) in Ok (VDict d')
  | VList xs =>
      let* xs' := list_sequence (clone safe <$> xs) in Ok (VList xs')
  | VObj c a =>
      if bool_decide (kind c ≠ PlainObject)
      then
        let cloned := clone false <$> a in
        let* new_object_params := get_params_shallow (Estimator c a) in
        let* new_object_params :=
          gather (λ name, default (Ok (VOpaque name)) (cloned !! name))
                 (param_names c) in
        let new_object := init (Estimator c ∅) new_object_params in
        let* _ := sanity_check new_object new_object_params in
        Ok (to_value new_object)
      else if safe
           then Raise (TypeError "Cannot clone object: no get_params")
           else Ok (deepcopy v)
  | _ =>
      if safe
      then Raise (TypeError "Cannot clone object: no get_params")
      else Ok (deepcopy v)
  end.

End sklearn.

(* ===================================================================== *)
(** ** [BaseEstimator]: reset and clone *)
(* ===================================================================== *)

Definition keep_msg : string :=
  "keep must be a string or list of strings containing attributes "
  +:+ "to keep after the reset.".

(** Whether [hash(v)] succeeds, as [set.discard] needs. *)
Definition hashable (v : value) : bool :=
  match v with
  | VList _ | VDict _ => false
  | _ => true
  end.

(** [for attr in keep: self_attrs.discard(attr)] *)
Fixpoint discard_all (keep : list value) (self_attrs : gset string)
  : result (gset string) :=
  match keep with
  | [] => Ok self_attrs
  | attr :: rest =>
      if hashable attr
      then discard_all rest
             match attr with
             | VStr s => self_attrs ∖ {[ s ]}
             | _ => self_attrs
             end
      else Raise (TypeError "unhashable type")
  end.

(** [[attr for attr in dir(self) if "__" not in attr]] *)
Definition no_dunder (attr : string) : Prop := str_contains "__" attr = false.

#[global] Instance no_dunder_dec attr : Decision (no_dunder attr).
Proof. unfold no_dunder. apply _. Defined.

Definition reset (e : estimator) (keep : value) : result estimator :=
  let* params := sklearn.get_params false e in
  let attrs := filter no_dunder (dir_self e) in
  let cls_attrs := dir_type (klass e) in
  let self_attrs := attrs ∖ cls_attrs in
  let* self_attrs :=
    match keep with
    | VNone => Ok self_attrs
    | VStr _ => discard_all [keep] self_attrs
    | VList keep => discard_all keep self_attrs
    | _ => Raise (TypeError keep_msg)
    end in
  let e := set_fold (λ attr e, delattr e attr) e self_attrs in
  Ok (init e params).

(** [clone()], that is [random_state=None]: the reseeding branch is not
    taken. *)
Definition clone (e : estimator) : result estimator :=
  let* estimator := sklearn.clone true (to_value e) in
  match estimator with
  | VObj c a => Ok (Estimator c a)
  | _ => Raise (TypeError "not an estimator")
  end.

(* ===================================================================== *)
(** ** [BaseEstimator]: composition, fitted state, fitted parameters *)
(* ===================================================================== *)

(** [is_composite] *)
Definition is_composite (e : estimator) : result bool :=
  let* params := sklearn.get_params false e in
  Ok (bool_decide (map_Exists (λ _ x, is_aeon_estimator x = true) params)).

(** [_components()], that is [base_class=None], which stands for
    [BaseEstimator]. *)
Definition _components (e : estimator) : result (gmap string value) :=
  let* params := sklearn.get_params false e in
  let param_names := dom params in
  let attrs := filter no_dunder (dir_self e) in
  let cls_attrs := dir_type (klass e) in
  let self_attrs := (attrs ∖ cls_attrs) ∖ param_names in
  let comp_dict := filter (λ xy, xy.1 ∈ self_attrs) (vars e) in
  let comp_dict :=
    filter (λ xy, is_aeon_estimator xy.2 = true) comp_dict in
  Ok comp_dict.

(** The property [is_fitted] *)
Definition is_fitted (e : estimator) : result value := getattr e "_is_fitted".

Definition not_fitted_msg (type_name : string) : string :=
  "This instance of " +:+ type_name +:+
  " has not been fitted yet; please call `fit` first.".

Definition check_is_fitted (e : estimator) : result unit :=
  let* fitted := is_fitted e in
  if negb (truthy fitted)
  then Raise (NotFittedError (not_fitted_msg (cname (klass e))))
  else Ok tt.

(** [dir(obj)], [hasattr(obj, x)] and [getattr(obj, x)] for a value; the
    built-in types have no public attribute that ends in an underscore. *)
Definition as_estimator (obj : value) : option estimator :=
  match obj with
  | VObj c a => Some (Estimator c a)
  | _ => None
  end.

Definition is_fitted_attr (attr : string) : Prop :=
  endswith_underscore attr = true ∧ startswith "_" attr = false.

#[global] Instance is_fitted_attr_dec attr : Decision (is_fitted_attr attr).
Proof. unfold is_fitted_attr. apply _. Defined.

(** [_get_fitted_params_default(obj)] *)
Definition _get_fitted_params_default (self : estimator) (obj : value)
  : gmap string value :=
  let obj := if truthy obj then obj else to_value self in
  match as_estimator obj with
  | Some o =>
      let fitted_params := filter is_fitted_attr (dir_self o) in
      set_fold (λ p fitted_param_dict,
                  match getattr o p with
                  | Ok v => <[drop_last p := v]> fitted_param_dict
                  | Raise _ => fitted_param_dict
                  end) ∅ fitted_params
  | None => ∅
  end.

(** [_get_fitted_params] *)
Definition _get_fitted_params (self : estimator) : gmap string value :=
  _get_fitted_params_default self VNone.

(** [{f"{sh(c)}__{k}": v for k, v in c_f_params.items()}] *)
Definition namespaced (c : string) (c_f_params : gmap string value)
  : gmap string value :=
  kmap (nested_key c) c_f_params.

(** One pass of the [for] loop inside the [while] loop of
    [get_fitted_params], over the items of [old_new_params]. *)
Definition sklearn_pass (self : estimator)
    (old_new_params : gmap string value) : gmap string value :=
  map_fold (λ c comp new_params,
              if is_sklearn_estimator comp
              then
                let c_f_params := _get_fitted_params_default self comp in
                dict_update new_params (namespaced c c_f_params)
              else new_params) ∅ old_new_params.

(** The [while n_new_params > 0] loop. [None]: more than [rounds]
    iterations are needed ([sklearn_loop_terminates] gives a bound). *)
Fixpoint sklearn_loop (rounds : nat) (self : estimator)
    (old_new_params fitted_params : gmap string value)
  : option (gmap string value) :=
  match rounds with
  | O => None
  | S rounds =>
      let new_params := sklearn_pass self old_new_params in
      let fitted_params := dict_update fitted_params new_params in
      let old_new_params := new_params in
      let n_new_params := size new_params in
      if bool_decide (0 < n_new_params)
      then sklearn_loop rounds self old_new_params fitted_params
      else Some fitted_params
  end.

Definition get_fitted_msg (type_name : string) : string :=
  "estimator of type " +:+ type_name +:+ " has not been " +:+
  "fitted yet, please call fit on data before get_fitted_params".

(** [comp._is_fitted] for a value *)
Definition value_is_fitted (comp : value) : result value :=
  match as_estimator comp with
  | Some o => getattr o "_is_fitted"
  | None => Raise (AttributeError "_is_fitted")
  end.

(** The body of the loop of [get_fitted_params] over the components;
    [calls] holds what [comp.get_fitted_params()] returns for the instance
    attributes. *)
Definition add_component (calls : gmap string (result (gmap string value)))
    (c : string) (comp : value) (fitted_params : result (gmap string value))
  : result (gmap string value) :=
  let* fitted_params := fitted_params in
  if is_aeon_estimator comp
  then
    let* comp_fitted := value_is_fitted comp in
    if truthy comp_fitted
    then
      let* c_f_params := default (Ok ∅) (calls !! c) in
      Ok (dict_update fitted_params (namespaced c c_f_params))
    else Ok fitted_params
  else Ok fitted_params.

(** [get_fitted_params(deep)] on a value that has the method. As in
    [sklearn.get_params_deep] the recursive calls are tabulated for every
    attribute and read where the source calls
    [comp.get_fitted_params()]. *)
Fixpoint get_fitted_params_value (deep : bool) (v : value)
  : result (gmap string value) :=
  match v with
  | VObj cl a =>
      let self := Estimator cl a in
      let* fitted := is_fitted self in
      if negb (truthy fitted)
      then Raise (NotFittedError (get_fitted_msg (cname cl)))
      else
        let fitted_params := _get_fitted_params self in
        if negb deep then Ok fitted_params
        else
          let calls := get_fitted_params_value true <$> a in
          let* c_dict := _components self in
          let* fitted_params :=
            map_fold (add_component calls) (Ok fitted_params) c_dict in
          match sklearn_loop (S (map_depth fitted_params)) self
                  fitted_params fitted_params with
          | Some fitted_params => Ok fitted_params
          | None => Raise (RuntimeError "the loop did not end")
          end
  | _ => Raise (AttributeError "get_fitted_params")
  end.

Definition get_fitted_params (e : estimator) (deep : bool)
  : result (gmap string value) :=
  get_fitted_params_value deep (to_value e).

(* ===================================================================== *)
(** ** Collaborator: [pickle] *)
(* ===================================================================== *)

(** [pickle.dumps] and [pickle.loads] are embedded at the level of the
    pickle machine: a pickle is the sequence of its opcodes with their
    arguments (the bytes that encode each opcode are not modelled), and
    [loads] is the stack machine that runs them.

    Within one interpreter session a class pickled by its qualified name
    resolves to the same class again, so [GLOBAL] carries the class itself.
    A function is pickled by name too, which fails for a name that is not
    importable: the qualified name of a lambda or of a local function
    contains an angle bracket. The pickler writes every container as
    [MARK], its items, [APPENDS] or [SETITEMS]; values are trees here, so
    the memo of the pickler, which preserves sharing, is left out. *)
Module pickle.

#[local] Open Scope list_scope.

Inductive opcode :=
| PROTO (version : nat)
| NONE | NEWTRUE | NEWFALSE
| INT (n : Z)
| UNICODE (s : string)
| EMPTY_LIST | EMPTY_DICT | EMPTY_TUPLE
| MARK | APPENDS | SETITEMS
| GLOBAL (c : pyclass value)
| GLOBAL_FUNCTION (name : string)
| NEWOBJ | BUILD
| STOP.

Definition stream := list opcode.

(** *** The pickler *)

Definition importable (name : string) : bool :=
  negb (str_contains "<" name).

Definition save_items (saved : list (result stream)) : result stream :=
  let* parts := list_sequence saved in Ok (concat parts).

Definition save_entries (saved : list (string * result stream))
  : result stream :=
  save_items ((λ kv, let* ops := kv.2 in Ok (UNICODE kv.1 :: ops))
                <$> saved).

(** [Pickler.save]; an instance is reduced to its class, no constructor
    arguments and its state, [self.__dict__]. *)
Fixpoint save (v : value) : result stream :=
  match v with
  | VNone => Ok [NONE]
  | VBool true => Ok [NEWTRUE]
  | VBool false => Ok [NEWFALSE]
  | VInt n => Ok [INT n]
  | VStr s => Ok [UNICODE s]
  | VList xs =>
      let* items := save_items (save <$> xs) in
      Ok ([EMPTY_LIST; MARK] ++ items ++ [APPENDS])
  | VDict d =>
      let* items := save_entries (map_to_list (save <$> d)) in
      Ok ([EMPTY_DICT; MARK] ++ items ++ [SETITEMS])
  | VObj c a =>
      let* items := save_entries (map_to_list (save <$> a)) in
      Ok ([GLOBAL c; EMPTY_TUPLE; NEWOBJ]
          ++ [EMPTY_DICT; MARK] ++ items ++ [SETITEMS] ++ [BUILD])
  | VOpaque name =>
      if importable name then Ok [GLOBAL_FUNCTION name]
      else Raise (PicklingError ("Can't pickle " +:+ name))
  end.

Definition dumps (v : value) : result stream :=
  let* ops := save v in Ok ([PROTO 4] ++ ops ++ [STOP]).

(** *** The unpickler *)

Inductive item :=
| IVal (v : value)
| IMark
| IClass (c : pyclass value)
| ITuple0.

(** [pop_mark]: the items above the topmost mark, in the order they
    were pushed, and the stack below the mark. *)
Fixpoint pop_mark (stack : list item) (items : list item)
  : option (list item * list item) :=
  match stack with
  | [] => None
  | IMark :: below => Some (items, below)
  | it :: below => pop_mark below (it :: items)
  end.

Fixpoint as_values (items : list item) : option (list value) :=
  match items with
  | [] => Some []
  | IVal v :: rest => cons v <$> as_values rest
  | _ => None
  end.

Fixpoint as_entries (items : list item) : option (list (string * value)) :=
  match items with
  | [] => Some []
  | IVal (VStr k) :: IVal v :: rest => cons (k, v) <$> as_entries rest
  | _ => None
  end.

(** [for k, v in entries: d[k] = v] *)
Definition set_items (d : gmap string value)
    (entries : list (string * value)) : gmap string value :=
  foldl (λ d kv, <[kv.1 := kv.2]> d) d entries.

Definition corrupt {A} : result A :=
  Raise (UnpicklingError "invalid pickle").

(** One opcode of [Unpickler.load]. *)
Definition step (op : opcode) (stack : list item)
  : result (list item) :=
  match op with
  | PROTO _ => Ok stack
  | NONE => Ok (IVal VNone :: stack)
  | NEWTRUE => Ok (IVal (VBool true) :: stack)
  | NEWFALSE => Ok (IVal (VBool false) :: stack)
  | INT n => Ok (IVal (VInt n) :: stack)
  | UNICODE s => Ok (IVal (VStr s) :: stack)
  | EMPTY_LIST => Ok (IVal (VList []) :: stack)
  | EMPTY_DICT => Ok (IVal (VDict ∅) :: stack)
  | EMPTY_TUPLE => Ok (ITuple0 :: stack)
  | MARK => Ok (IMark :: stack)
  | APPENDS =>
      match pop_mark stack [] with
      | Some (items, IVal (VList xs) :: below) =>
          match as_values items with
          | Some ys => Ok (IVal (VList (xs ++ ys)) :: below)
          | None => corrupt
          end
      | _ => corrupt
      end
  | SETITEMS =>
      match pop_mark stack [] with
      | Some (items, IVal (VDict d) :: below) =>
          match as_entries items with
          | Some entries => Ok (IVal (VDict (set_items d entries)) :: below)
          | None => corrupt
          end
      | _ => corrupt
      end
  | GLOBAL c => Ok (IClass c :: stack)
  | GLOBAL_FUNCTION name =>
      if importable name then Ok (IVal (VOpaque name) :: stack)
      else Raise (AttributeError ("Can't get attribute " +:+ name))
  | NEWOBJ =>
      match stack with
      | ITuple0 :: IClass c :: below => Ok (IVal (VObj c ∅) :: below)
      | _ => corrupt
      end
  | BUILD =>
      match stack with
      | IVal (VDict state) :: IVal (VObj c a) :: below =>
          Ok (IVal (VObj c (dict_update a state)) :: below)
      | _ => corrupt
      end
  | STOP => corrupt
  end.

(** [Unpickler.load]: runs to [STOP] and returns the top of the stack. *)
Fixpoint run (ops : stream) (stack : list item) : result value :=
  match ops with
  | [] => Raise (UnpicklingError "pickle data was truncated")
  | STOP :: _ =>
      match stack with
      | IVal v :: _ => Ok v
      | _ => corrupt
      end
  | op :: rest =>
      let* stack := step op stack in run rest stack
  end.

Definition loads (serial : stream) : result value := run serial [].

(** *** Notions of the round-trip proof *)

(** The items of a dictionary on the stack: key, value, key, value. *)
Definition entry_items (entries : list (string * value)) : list item :=
  entries ≫= λ kv, [IVal (VStr kv.1); IVal kv.2].

(** A pickled value, run on any stack, ends up on top of it. *)
Definition pushes (v : value) : Prop :=
  ∀ ops, save v = Ok ops →
  ∀ rest stack, run (ops ++ rest) stack = run rest (IVal v :: stack).

End pickle.

(* ===================================================================== *)
(** ** [BaseEstimator]: serialization *)
(* ===================================================================== *)

(** [save(path=None)], the in-memory branch: the tuple of [type(self)] and
    the pickle of [self]. The branch that writes an archive at [path] is
    not embedded. *)
Definition save (e : estimator) : result (pyclass value * pickle.stream) :=
  let* serial := pickle.dumps (to_value e) in
  Ok (klass e, serial).

(** [load_from_serial(serial)] *)
Definition load_from_serial (serial : pickle.stream) : result value :=
  pickle.loads serial.

(* ===================================================================== *)
(** ** The store-level model: identity and in-place mutation *)
(* ===================================================================== *)

(** Lists, dictionaries and instances are cells of a heap, and a value is
    an immutable atom or a reference to a cell: two references to one cell
    see each other's mutations. [set_tags], [get_class_tags], [get_tags]
    and [get_tag] are embedded again at this level, with [copy.deepcopy]
    as the graph copy it is. *)
Module Store.

Abbreviation loc := positive (only parsing).

Inductive rvalue :=
| RNone
| RBool (b : bool)
| RInt (n : Z)
| RStr (s : string)
| RRef (l : loc).

(** An instance keeps, of its class, what the tag methods read: for each
    class of [inspect.getmro(cls)], most specific first, the dictionary
    [parent_class._tags], and [None] where [hasattr] is false. *)
Inductive cell :=
| CList (items : list rvalue)
| CDict (d : gmap string rvalue)
| CObj (mro_tags : list (option loc)) (attrs : gmap string rvalue).

Abbreviation heap := (gmap loc cell) (only parsing).

#[global] Instance rvalue_eq_dec : EqDecision rvalue.
Proof. solve_decision. Defined.

#[global] Instance cell_eq_dec : EqDecision cell.
Proof. solve_decision. Defined.

(** A new object *)
Definition alloc (h : heap) (c : cell) : loc * heap :=
  let l := fresh (dom h) in (l, <[l := c]> h).

(** *** [copy.deepcopy] *)

(** The items a copier goes through, in order; the empty copy it
    starts from; and the copy filled with the copies of the items. *)
Definition items_of (c : cell) : list rvalue :=
  match c with
  | CList items => items
  | CDict d => (map_to_list d).*2
  | CObj _ attrs => (map_to_list attrs).*2
  end.

Definition empty_like (c : cell) : cell :=
  match c with
  | CList _ => CList []
  | CDict _ => CDict ∅
  | CObj mro _ => CObj mro ∅
  end.

Definition fill (c : cell) (copies : list rvalue) : cell :=
  match c with
  | CList _ => CList copies
  | CDict d => CDict (list_to_map (zip (map_to_list d).*1 copies))
  | CObj mro attrs =>
      CObj mro (list_to_map (zip (map_to_list attrs).*1 copies))
  end.

(** [memo]: from the identity of an original to its copy. *)
Abbreviation memo := (gmap loc loc) (only parsing).

(** [for a in x: y.append(deepcopy(a, memo))] *)
Fixpoint copy_items
    (copy : heap → memo → rvalue → option (rvalue * heap * memo))
    (h : heap) (m : memo) (items : list rvalue)
  : option (list rvalue * heap * memo) :=
  match items with
  | [] => Some ([], h, m)
  | a :: rest =>
      '(a', h, m) ← copy h m a;
      '(rest', h, m) ← copy_items copy h m rest;
      Some (a' :: rest', h, m)
  end.

(** [deepcopy(x, memo)]: an atom is returned as it is; a cell found in
    the memo is not copied again; otherwise the copier of the type
    creates the empty copy [y], sets [memo[id(x)] = y], copies the items
    and fills [y]. [fuel] bounds the nesting of the calls; [None] stands
    for a dangling reference or for the bound being reached. *)
Fixpoint deepcopy_rec (fuel : nat) (h : heap) (m : memo) (x : rvalue)
  : option (rvalue * heap * memo) :=
  match x with
  | RRef l =>
      match m !! l with
      | Some y => Some (RRef y, h, m)
      | None =>
          match fuel, h !! l with
          | S fuel, Some c =>
              let y := fresh (dom h) in
              let h := <[y := empty_like c]> h in
              let m := <[l := y]> m in
              '(copies, h, m) ←
                copy_items (deepcopy_rec fuel) h m (items_of c);
              Some (RRef y, <[y := fill c copies]> h, m)
          | _, _ => None
          end
      end
  | _ => Some (x, h, m)
  end.

(** [deepcopy(x)]; the nesting of the calls never exceeds the number of
    cells, see [deepcopy_spec]. *)
Definition deepcopy (h : heap) (x : rvalue) : option (rvalue * heap) :=
  '(y, h, _) ← deepcopy_rec (S (size h)) h ∅ x; Some (y, h).

Definition deepcopy_failed {A} : result A :=
  Raise (RuntimeError "deepcopy: dangling reference").

(** *** The tag methods *)

(** [d.update(other)] on the cell of [d], for [other] a dictionary *)
Definition update_dict (h : heap) (d other : loc) : result heap :=
  match h !! d, h !! other with
  | Some (CDict collected), Some (CDict more) =>
      Ok (<[d := CDict (more ∪ collected)]> h)
  | Some (CDict _), _ => Raise (TypeError "object is not a mapping")
  | _, _ => Raise (AttributeError "update")
  end.

(** The loop of [get_class_tags]. *)
Fixpoint collect_tags (h : heap) (collected_tags : loc)
    (parents : list (option loc)) : result heap :=
  match parents with
  | [] => Ok h
  | None :: rest => collect_tags h collected_tags rest
  | Some more_tags :: rest =>
      let* h := update_dict h collected_tags more_tags in
      collect_tags h collected_tags rest
  end.

Definition get_class_tags (h : heap) (mro_tags : list (option loc))
  : result (loc * heap) :=
  let '(collected_tags, h) := alloc h (CDict ∅) in
  let* h :=
    collect_tags h collected_tags (reverse (drop_last_two mro_tags)) in
  match deepcopy h (RRef collected_tags) with
  | Some (RRef copy, h) => Ok (copy, h)
  | _ => deepcopy_failed
  end.

(** [type(self)] and [vars(self)] *)
Definition instance (h : heap) (self : loc)
  : result (list (option loc) * gmap string rvalue) :=
  match h !! self with
  | Some (CObj mro attrs) => Ok (mro, attrs)
  | _ => Raise (TypeError "not an instance")
  end.

Definition get_tags (h : heap) (self : loc) : result (loc * heap) :=
  let* '(mro, attrs) := instance h self in
  let* '(collected_tags, h) := get_class_tags h mro in
  let* h :=
    match attrs !! "_tags_dynamic" with
    | Some (RRef dynamic) => update_dict h collected_tags dynamic
    | Some _ => Raise (TypeError "object is not a mapping")
    | None => Ok h
    end in
  match deepcopy h (RRef collected_tags) with
  | Some (RRef copy, h) => Ok (copy, h)
  | _ => deepcopy_failed
  end.

Definition get_tag (h : heap) (self : loc) (tag_name : string)
    (tag_value_default : rvalue) (raise_error : bool)
  : result (rvalue * heap) :=
  let* '(collected_tags, h) := get_tags h self in
  match h !! collected_tags with
  | Some (CDict tags) =>
      let tag_value := default tag_value_default (tags !! tag_name) in
      if raise_error && bool_decide (tag_name ∉ dom tags)
      then Raise (ValueError (tag_not_found tag_name))
      else Ok (tag_value, h)
  | _ => Raise (TypeError "not a dict")
  end.

(** [set_tags], called with the keyword arguments [tag_dict]: the call
    creates the dictionary [tag_dict] of the arguments, which
    [deepcopy] then copies. *)
Definition set_tags (h : heap) (self : loc)
    (tag_dict : gmap string rvalue) : result heap :=
  let '(kwargs, h) := alloc h (CDict tag_dict) in
  match deepcopy h (RRef kwargs) with
  | Some (RRef tag_update, h) =>
      let* '(mro, attrs) := instance h self in
      match attrs !! "_tags_dynamic" with
      | Some (RRef dynamic) => update_dict h dynamic tag_update
      | Some _ => Raise (AttributeError "update")
      | None =>
          Ok (<[self :=
                  CObj mro (<["_tags_dynamic" := RRef tag_update]> attrs)]>
                h)
      end
  | _ => deepcopy_failed
  end.

(** *** Comparing values across heaps *)

(** What a value looks like down to [n] levels of references. *)
Inductive tree :=
| TNone
| TBool (b : bool)
| TInt (n : Z)
| TStr (s : string)
| TList (items : list tree)
| TDict (d : gmap string tree)
| TObj (attrs : gmap string tree)
| TCut.

Definition cell_tree (look : rvalue → tree) (c : cell) : tree :=
  match c with
  | CList items => TList (look <$> items)
  | CDict d => TDict (look <$> d)
  | CObj _ attrs => TObj (look <$> attrs)
  end.

Fixpoint unfold (n : nat) (h : heap) (x : rvalue) : tree :=
  match x with
  | RNone => TNone
  | RBool b => TBool b
  | RInt k => TInt k
  | RStr s => TStr s
  | RRef l =>
      match n, h !! l with
      | S n, Some c => cell_tree (unfold n h) c
      | _, _ => TCut
      end
  end.


(** No dangling reference. *)
Definition ref_in (h : heap) (x : rvalue) : Prop :=
  match x with
  | RRef l => l ∈ dom h
  | _ => True
  end.

#[global] Instance ref_in_dec h x : Decision (ref_in h x).
Proof. destruct x; simpl; apply _. Defined.

Definition closed (h : heap) : Prop :=
  map_Forall (λ _ c, Forall (ref_in h) (items_of c)) h.

#[global] Instance closed_dec h : Decision (closed h).
Proof. unfold closed. apply _. Defined.


(** What the caller of [set_tags] may have done to the heap [h1] the
    call left, [h] being the heap before the call: any cell may have
    changed or appeared, the argument and everything it refers to
    included, except the cells the call created, the estimator and
    the dictionary [_tags_dynamic], to which the caller holds no
    reference; the class-level [_tags] are still dictionaries. *)
Definition is_dict (h : heap) (t : option loc) : Prop :=
  match t with
  | Some l => match h !! l with Some (CDict _) => True | _ => False end
  | None => True
  end.

#[global] Instance is_dict_dec h t : Decision (is_dict h t).
Proof.
  destruct t as [l|]; simpl; [|apply _].
  destruct (h !! l) as [[]|]; apply _.
Defined.

Definition own_cells_kept (h1 : heap) (self : loc) (h2 : heap) : Prop :=
  match h1 !! self with
  | Some (CObj mro attrs) =>
      match attrs !! "_tags_dynamic" with
      | Some (RRef d) => h2 !! d = h1 !! d
      | _ => True
      end ∧ Forall (is_dict h2) mro
  | _ => True
  end.

#[global] Instance own_cells_kept_dec h1 self h2 :
  Decision (own_cells_kept h1 self h2).
Proof.
  unfold own_cells_kept. destruct (h1 !! self) as [[| |mro attrs]|];
    try apply _.
  destruct (attrs !! "_tags_dynamic") as [[]|]; apply _.
Defined.

Definition mutated_by_caller (h h1 : heap) (self : loc) (h2 : heap)
  : Prop :=
  closed h2 ∧
  map_Forall (λ l c, l ∉ dom h → h2 !! l = Some c) h1 ∧
  h2 !! self = h1 !! self ∧
  own_cells_kept h1 self h2.

#[global] Instance mutated_by_caller_dec h h1 self h2 :
  Decision (mutated_by_caller h h1 self h2).
Proof. unfold mutated_by_caller. apply _. Defined.

(** *** The invariant of the graph copy *)


Definition covered (m : memo) (x : rvalue) : Prop :=
  match x with
  | RRef l => is_Some (m !! l)
  | _ => True
  end.





#[global] Instance covered_dec m x : Decision (covered m x).
Proof. destruct x; simpl; apply _. Defined.

(** *** An example *)






End Store.

(* ===================================================================== *)
(** ** Notions the statements use *)
(* ===================================================================== *)

(** The value a tag has in the most specific class of the resolution
    order that declares it. *)
Fixpoint most_specific (k : string) (mro : list (option (gmap string value)))
  : option value :=
  match mro with
  | [] => None
  | parent_class :: rest =>
      match parent_class ≫= (λ tags, tags !! k) with
      | Some v => Some v
      | None => most_specific k rest
      end
  end.

(** [_tags_dynamic] is absent or holds a [dict], as it does on every
    instance the methods of the base class have produced. *)
Definition dynamic_store_ok (e : estimator) : Prop :=
  hasattr e "_tags_dynamic" = false ∨
  ∃ d, getattr e "_tags_dynamic" = Ok (VDict d).

(** A class follows the constructor convention when no hyper-parameter
    is reassigned after [__init__] stored it. *)
Definition conforming (c : pyclass value) : Prop :=
  Forall (λ k, k ∉ sklearn.later_assigned c) (param_names c).

#[global] Instance conforming_dec c : Decision (conforming c).
Proof. unfold conforming. apply _. Defined.

(** Values [sklearn.clone] copies as they are: no estimator among the
    items of the lists and dictionaries it goes through. *)
Fixpoint estimator_free (v : value) : bool :=
  match v with
  | VList xs => forallb estimator_free xs
  | VDict d => map_fold (λ _ x b, estimator_free x && b) true d
  | VObj c _ => bool_decide (kind c = PlainObject)
  | _ => true
  end.

(** The check [reset] makes on [keep]: not [None], not a [str], not a
    [list]. *)
Definition keep_rejected (keep : value) : bool :=
  match keep with
  | VNone | VStr _ | VList _ => false
  | _ => true
  end.

(** "A string or a list of strings", as the specification words it. *)
Definition is_str (v : value) : bool :=
  match v with VStr _ => true | _ => false end.

Definition str_or_list_of_str (keep : value) : bool :=
  match keep with
  | VStr _ => true
  | VList items => forallb is_str items
  | _ => false
  end.

(** The fitted flag of the estimator held by the "transformer"
    hyper-parameter in a parameter mapping. *)
Definition estimator_parameter_flag (params : result (gmap string value))
  : option value :=
  match params with
  | Ok p =>
      match p !! "transformer" with
      | Some (VObj _ a) => a !! "_is_fitted"
      | _ => None
      end
  | Raise _ => None
  end.

(* ===================================================================== *)
(** ** Example classes and instances *)
(* ===================================================================== *)

Module Examples.

(** The names [dir(BaseEstimator)] lists, the dunder names reduced to
    the ones the methods meet. *)
Definition base_attr_names : list string :=
  [ "_tags"; "reset"; "clone"; "get_class_tags"; "get_class_tag";
    "get_tags"; "get_tag"; "set_tags"; "get_test_params";
    "create_test_instance"; "create_test_instances_and_names";
    "_has_implementation_of"; "is_composite"; "_components"; "save";
    "load_from_serial"; "load_from_path"; "is_fitted"; "check_is_fitted";
    "get_fitted_params"; "_get_fitted_params_default";
    "_get_fitted_params"; "get_params"; "set_params";
    "__init__"; "__class__"; "__dict__" ].

(** [BaseEstimator] itself: its resolution order is the class, the
    scikit-learn base class and [object]. *)
Definition BaseEstimator : pyclass value :=
  PyClass "BaseEstimator" AeonEstimator
    [Some BaseEstimator_tags; None; None] base_attr_names [] [].

(** A transformer after [DiscreteFourierApproximation]: two
    hyper-parameters, three tags of its own, an attribute [axis] assigned
    by the constructor of its base class, and an empty [fit]. *)
Definition smoother_tags : gmap string value :=
  list_to_map
    [ ("capability:multivariate", VBool true);
      ("X_inner_type", VStr "np.ndarray");
      ("fit_is_empty", VBool true) ].

Definition Smoother : pyclass value :=
  PyClass "DiscreteFourierApproximation" AeonEstimator
    [Some smoother_tags; Some BaseEstimator_tags; None; None]
    base_attr_names
    [("r", VInt 1); ("sort", VBool false)]
    [("axis", VInt 1)].

(** A composite: the hyper-parameter [transformer] is a blueprint, the
    attribute [transformer_] the component that [fit] creates from it. *)
Definition Pipeline : pyclass value :=
  PyClass "Pipeline" AeonEstimator
    [Some BaseEstimator_tags; None; None] base_attr_names
    [("transformer", VNone)] [].

Definition base_estimator : estimator :=
  init (Estimator BaseEstimator ∅) ∅.

Definition smoother : estimator := init (Estimator Smoother ∅) ∅.

Definition smoother_fitted : estimator :=
  setattr smoother "_is_fitted" (VBool true).

(** A fitted pipeline whose blueprint was itself fitted when passed. *)
Definition pipeline : estimator :=
  init (Estimator Pipeline ∅)
       {[ "transformer" := to_value smoother_fitted ]}.

Definition pipeline_fitted : estimator :=
  let e := setattr pipeline "transformer_" (to_value smoother_fitted) in
  let e := setattr e "n_timepoints_" (VInt 100) in
  setattr e "_is_fitted" (VBool true).



End Examples.

(* ===================================================================== *)
(** ** Further notions: what a constructor assigns, what [reset] keeps *)
(* ===================================================================== *)

(** The attributes [__init__] assigns: the hyper-parameters, the further
    attributes of the class and the two of [BaseEstimator.__init__]. *)
Definition init_assigned (c : pyclass value) : list string :=
  param_names c ++ sklearn.later_assigned c.

(** The names [for attr in keep: self_attrs.discard(attr)] can remove
    from a set of strings. *)
Definition kept_in (keep : list value) : gset string :=
  list_to_set (omap (λ attr, match attr with
                             | VStr s => Some s
                             | _ => None
                             end) keep).

Definition kept_names (keep : value) : gset string :=
  match keep with
  | VStr s => {[ s ]}
  | VList items => kept_in items
  | _ => ∅
  end.

(** The instance attributes [reset] leaves alone: the kept ones, those
    with a double underscore in their name and those that shadow a name of
    the class. *)
Definition survives_reset (c : pyclass value) (keep : value) (k : string)
  : Prop :=
  k ∈ kept_names keep ∨ str_contains "__" k = true ∨ k ∈ cls_attr_names c.

#[global] Instance survives_reset_dec c keep k :
  Decision (survives_reset c keep k).
Proof. unfold survives_reset. apply _. Defined.

(** The values of [keep] that [reset] accepts: [None], a [str], and a
    [list] whose items can be looked up in a set. *)
Definition keep_accepted (keep : value) : bool :=
  match keep with
  | VNone | VStr _ => true
  | VList items => forallb hashable items
  | _ => false
  end.

(** The attributes [reset(keep)] deletes. *)
Definition reset_deletes (e : estimator) (keep : value) : gset string :=
  (filter no_dunder (dir_self e) ∖ dir_type (klass e)) ∖ kept_names keep.

(** A run of [n] underscores. *)
Fixpoint underscores (n : nat) : string :=
  match n with
  | O => ""
  | S n => String "_" (underscores n)
  end.

(* ===================================================================== *)
(** ** [BaseEstimator]: method lookup and test instances *)
(* ===================================================================== *)


(** The class method [get_test_params] of a class: whether
    ["parameter_set"] is among the names
    [inspect.getfullargspec(cls.get_test_params).args] lists, and what the
    call returns, with and without the argument. *)
Record test_params_method := TestParamsMethod {
  takes_parameter_set : bool;
  test_params : option string → value
}.

(** [BaseEstimator.get_test_params]: the empty dictionary. *)
Definition BaseEstimator_get_test_params : test_params_method :=
  TestParamsMethod true (λ _, VDict ∅).

Definition call_get_test_params (m : test_params_method)
    (parameter_set : string) : value :=
  if takes_parameter_set m
  then test_params m (Some parameter_set)
  else test_params m None.

(** [cls] called on the keyword arguments unpacked from [params], which
    has to be a mapping. *)
Definition construct_from (c : pyclass value) (params : value)
  : result estimator :=
  match params with
  | VDict kwargs => construct c kwargs
  | _ => Raise (TypeError "argument after ** must be a mapping")
  end.

(** [create_test_instance] returns an instance or a list of instances,
    and indexing an empty list raises [IndexError], which is not among
    the exceptions of [exn]. *)
Inductive created :=
| Instance (e : estimator)
| Instances (l : list estimator).

Inductive outcome (A : Type) :=
| Returned (a : A)
| Raised (e : exn)
| RaisedIndexError (msg : string).
Arguments Returned {A} a.
Arguments Raised {A} e.
Arguments RaisedIndexError {A} msg.

Definition of_result {A} (r : result A) : outcome A :=
  match r with
  | Ok a => Returned a
  | Raise e => Raised e
  end.

Definition create_test_instance (c : pyclass value) (m : test_params_method)
    (parameter_set : string) (return_first : bool) : outcome created :=
  let params := call_get_test_params m parameter_set in
  match params with
  | VList l =>
      if return_first
      then
        match l with
        | [] => RaisedIndexError "list index out of range"
        | p :: _ =>
            of_result (let* o := construct_from c p in Ok (Instance o))
        end
      else
        of_result (let* os := list_sequence (construct_from c <$> l) in
                   Ok (Instances os))
  | _ =>
      if return_first
      then of_result (let* o := construct_from c params in Ok (Instance o))
      else of_result (let* o := construct_from c params in
                      Ok (Instances [o]))
  end.

Definition test_params_msg (type_name : string) : string :=
  "Error in " +:+ type_name +:+ ".get_test_params, "
  +:+ "return must be param dict for class, or list thereof".

(** The loop [for params in param_list] of
    [create_test_instances_and_names]. *)
Fixpoint build_instances (c : pyclass value) (param_list : list value)
    (objs : list estimator) : result (list estimator) :=
  match param_list with
  | [] => Ok objs
  | params :: rest =>
      match params with
      | VDict kwargs =>
          let* o := construct c kwargs in
          build_instances c rest (objs ++ [o])
      | _ => Raise (RuntimeError (test_params_msg (cname c)))
      end
  end.

Definition create_test_instances_and_names (c : pyclass value)
    (m : test_params_method) (parameter_set : string)
  : result (list estimator * list string) :=
  let param_list := call_get_test_params m parameter_set in
  let* param_list :=
    match param_list with
    | VDict _ => Ok [param_list]
    | VList l => Ok l
    | _ => Raise (RuntimeError (test_params_msg (cname c)))
    end in
  let* objs := build_instances c param_list [] in
  let n_cases := length param_list in
  let names :=
    if bool_decide (1 < n_cases)
    then (λ i : nat, cname c +:+ "-" +:+ pretty i) <$> seq 0 n_cases
    else [cname c] in
  Ok (objs, names).

(** A mapping of keyword arguments the constructor of [c] accepts. *)
Definition accepted_kwargs (c : pyclass value) (params : value) : Prop :=
  match params with
  | VDict kwargs => dom kwargs ⊆ list_to_set (param_names c)
  | _ => False
  end.

#[global] Instance accepted_kwargs_dec c params :
  Decision (accepted_kwargs c params).
Proof. destruct params; simpl; apply _. Defined.

Definition isinstance_dict (v : value) : bool :=
  match v with VDict _ => true | _ => false end.

Definition isinstance_list (v : value) : bool :=
  match v with VList _ => true | _ => false end.



(* ===================================================================== *)
(** ** Further example instances *)
(* ===================================================================== *)

Module MoreExamples.

(** The transformer after [set_tags(fit_is_empty=False)]. *)
Definition smoother_tagged : estimator :=
  setattr Examples.smoother "_tags_dynamic"
    (VDict {[ "fit_is_empty" := VBool false ]}).

(** [EncoderRegressor.get_test_params] returns a list with one
    dictionary; a class may as well return the empty list. *)
Definition one_set : test_params_method :=
  TestParamsMethod true (λ _, VList [VDict {[ "r" := VInt 8 ]}]).

Definition two_sets : test_params_method :=
  TestParamsMethod true
    (λ _, VList [VDict {[ "r" := VInt 8 ]}; VDict {[ "sort" := VBool true ]}]).

Definition no_set : test_params_method :=
  TestParamsMethod false (λ _, VList []).

(** A fitted transformer that holds an estimator it created in [fit],
    and none among its hyper-parameters. *)
Definition smoother_with_component : estimator :=
  setattr Examples.smoother_fitted "inner_"
    (to_value Examples.smoother_fitted).


(** A class whose constructor overwrites its parameter,
    [def __init__(self, n=1): self.n = 5; super().__init__()]: it does
    not follow the constructor convention. *)
Definition Overwriting : pyclass value :=
  PyClass "Overwriting" AeonEstimator
    [Some BaseEstimator_tags; None; None] Examples.base_attr_names
    [("n", VInt 1)] [("n", VInt 5)].

(** An instance of it, after [self.n = 7]. *)
Definition overwriting : estimator :=
  setattr (init (Estimator Overwriting ∅) ∅) "n" (VInt 7).

End MoreExamples.

(* ===================================================================== *)
(** * Theorems *)
(* ===================================================================== *)

Open Scope nat_scope.

(** ** Values and tags *)

Lemma depth_lookup (m : gmap string value) k x :
  m !! k = Some x → depth x ≤ map_depth m.
Proof.
  unfold map_depth. revert k x.
  apply (map_fold_weak_ind (λ r m, ∀ k x, m !! k = Some x → depth x ≤ r)).
  - intros k x. rewrite lookup_empty. discriminate.
  - intros i y m' r Hi IH k x. rewrite lookup_insert_Some.
    intros [[-> ->]|[_ Hk]]; [lia|]. specialize (IH _ _ Hk). lia.
Qed.

Lemma depth_elem (xs : list value) x :
  x ∈ xs → depth x ≤ foldr (λ x n, depth x `max` n) 0 xs.
Proof.
  induction 1; simpl; lia.
Qed.

Lemma value_nested_ind (P : value → Prop) :
  P VNone → (∀ b, P (VBool b)) → (∀ n, P (VInt n)) → (∀ s, P (VStr s)) →
  (∀ xs, Forall P xs → P (VList xs)) →
  (∀ d, map_Forall (λ _, P) d → P (VDict d)) →
  (∀ c a, map_Forall (λ _, P) a → P (VObj c a)) →
  (∀ s, P (VOpaque s)) →
  ∀ v, P v.
Proof.
  intros HN HB HI HS HL HD HO HQ v.
  remember (depth v) as n eqn:Hn. revert v Hn.
  induction n as [n IH] using lt_wf_ind. intros v ->.
  destruct v as [| | | |xs|d|c a|]; auto.
  - apply HL, Forall_forall. intros x Hx.
    apply (IH (depth x)); [|done]. apply depth_elem in Hx. simpl. lia.
  - apply HD. intros k x Hk.
    apply (IH (depth x)); [|done]. apply depth_lookup in Hk.
    unfold map_depth in Hk. simpl. lia.
  - apply HO. intros k x Hk.
    apply (IH (depth x)); [|done]. apply depth_lookup in Hk.
    unfold map_depth in Hk. simpl. lia.
Qed.

Lemma deepcopy_id v : deepcopy v = v.
Proof.
  induction v using value_nested_ind; simpl; try done.
  - f_equal. induction H; simpl; [done|]. by f_equal.
  - f_equal. apply map_eq. intros k. rewrite lookup_fmap.
    destruct (d !! k) eqn:E; simpl; [|done]. f_equal. by apply (H k).
  - f_equal. apply map_eq. intros k. rewrite lookup_fmap.
    destruct (a !! k) eqn:E; simpl; [|done]. f_equal. by apply (H k).
Qed.


Lemma deepcopy_fmap_id (m : gmap string value) : deepcopy <$> m = m.
Proof.
  apply map_eq. intros k. rewrite lookup_fmap.
  destruct (m !! k); simpl; [|done]. by rewrite deepcopy_id.
Qed.

Lemma collect_tags_snoc l p :
  collect_tags (l ++ [p]) =
  match p with Some more => dict_update (collect_tags l) more | None => collect_tags l end.
Proof. unfold collect_tags. by rewrite foldl_app. Qed.

Lemma collect_tags_lookup k mro :
  collect_tags (reverse mro) !! k = most_specific k mro.
Proof.
  induction mro as [|p mro IH]; simpl.
  - done.
  - rewrite reverse_cons, collect_tags_snoc.
    destruct p as [more|]; simpl; [|done].
    unfold dict_update. rewrite lookup_union.
    destruct (more !! k); simpl; [by destruct (collect_tags _ !! k)|].
    rewrite IH. by destruct (most_specific k mro).
Qed.

Lemma get_class_tags_lookup c k :
  get_class_tags c !! k = most_specific k (drop_last_two (mro_tags c)).
Proof.
  unfold get_class_tags. rewrite deepcopy_fmap_id. apply collect_tags_lookup.
Qed.

Lemma getattr_vars e k v : vars e !! k = Some v → getattr e k = Ok v.
Proof. unfold getattr. by intros ->. Qed.

Lemma hasattr_vars e k v : vars e !! k = Some v → hasattr e k = true.
Proof. unfold hasattr. intros H. by rewrite (getattr_vars _ _ _ H). Qed.

Lemma get_tags_dynamic e d :
  vars e !! "_tags_dynamic" = Some (VDict d) →
  get_tags e = Ok (d ∪ get_class_tags (klass e)).
Proof.
  intros H. unfold get_tags.
  rewrite (hasattr_vars _ _ _ H), (getattr_vars _ _ _ H). simpl.
  by rewrite deepcopy_fmap_id.
Qed.

Lemma get_tags_dom e tags :
  get_tags e = Ok tags → dom (get_class_tags (klass e)) ⊆ dom tags.
Proof.
  unfold get_tags. destruct (hasattr e "_tags_dynamic").
  - destruct (getattr e "_tags_dynamic") as [d|]; simpl; [|done].
    destruct d; simpl; try done.
    intros [= <-]. rewrite deepcopy_fmap_id. unfold dict_update.
    rewrite dom_union_L. set_solver.
  - simpl. intros [= <-]. by rewrite deepcopy_fmap_id.
Qed.

Lemma set_tags_dynamic e kw e' :
  set_tags e kw = Ok e' →
  klass e' = klass e ∧
  ∃ d, vars e' = <["_tags_dynamic" := VDict d]> (vars e) ∧
       ∀ x v, kw !! x = Some v → d !! x = Some v.
Proof.
  unfold set_tags. rewrite deepcopy_fmap_id.
  destruct (hasattr e "_tags_dynamic").
  - destruct (getattr e "_tags_dynamic") as [d|]; simpl; [|done].
    destruct d; simpl; try done.
    intros [= <-]. split; [done|]. eexists; split; [done|].
    intros x v Hx. unfold dict_update. by apply lookup_union_Some_l.
  - intros [= <-]. split; [done|]. eexists; split; [done|]. done.
Qed.

Lemma lookup_tag_present tags x v d r :
  tags !! x = Some v → lookup_tag tags x d r = Ok v.
Proof.
  intros H. unfold lookup_tag. rewrite H. simpl.
  rewrite bool_decide_eq_false_2; [by rewrite andb_false_r|].
  intros Hn. apply Hn. apply elem_of_dom. eauto.
Qed.

Lemma lookup_tag_absent tags x d :
  tags !! x = None →
  lookup_tag tags x d false = Ok d ∧
  lookup_tag tags x d true = Raise (ValueError (tag_not_found x)).
Proof.
  intros H. unfold lookup_tag. rewrite H. simpl. split; [done|].
  rewrite bool_decide_eq_true_2; [done|]. by apply not_elem_of_dom.
Qed.

Lemma set_tags_get_tag e kw e' x v d r :
  set_tags e kw = Ok e' → kw !! x = Some v → get_tag e' x d r = Ok v.
Proof.
  intros Hs Hx. destruct (set_tags_dynamic _ _ _ Hs) as (Hk & D & Hv & HD).
  unfold get_tag. rewrite (get_tags_dynamic e' D).
  2:{ rewrite Hv. apply lookup_insert_eq. }
  simpl. apply lookup_tag_present. apply lookup_union_Some_l. eauto.
Qed.


Lemma get_tags_total e : dynamic_store_ok e → ∃ tags, get_tags e = Ok tags.
Proof.
  unfold get_tags. intros [H|[d H]].
  - rewrite H. simpl. eauto.
  - unfold hasattr. rewrite H. simpl. eauto.
Qed.

(** C2: every key of [get_class_tags()] is a key of [get_tags()], which
    returns whenever [_tags_dynamic] is absent or a [dict]; the value
    [get_class_tags()] gives a key is the one of the most specific class
    of the resolution order that declares it, the two root classes left
    out; and after [set_tags(x=v)], [get_tag("x")] is [v], whatever the
    default and the raise flag, and whatever the classes declare for
    [x]. *)
Theorem tags_merge_and_override (e : estimator) :
  (∀ tags, get_tags e = Ok tags → dom (get_class_tags (klass e)) ⊆ dom tags)
  ∧ (dynamic_store_ok e → ∃ tags, get_tags e = Ok tags)
  ∧ (∀ k, get_class_tags (klass e) !! k
          = most_specific k (drop_last_two (mro_tags (klass e))))
  ∧ (∀ kw e' x v d r,
       set_tags e kw = Ok e' → kw !! x = Some v → get_tag e' x d r = Ok v).
Proof.
  split; [apply get_tags_dom|]. split; [apply get_tags_total|].
  split; [intros; apply get_class_tags_lookup|].
  intros. eapply set_tags_get_tag; eauto.
Qed.


(** Reading the parameters: the loop [gather]. *)
Lemma gather_from_inv read names (acc p : gmap string value) :
  sklearn.gather_from read names acc = Ok p →
  (∀ k, k ∈ names → ∃ v, read k = Ok v ∧ p !! k = Some v) ∧
  (∀ k, k ∉ names → p !! k = acc !! k).
Proof.
  revert acc.
  induction names as [|n names IH]; intros acc; simpl.
  - intros [= <-]. split; [|done]. intros k Hk. by apply elem_of_nil in Hk.
  - destruct (read n) as [v|ex] eqn:Hn; simpl.
    + intros H. destruct (IH _ H) as [H1 H2]. split.
      * intros k Hk. destruct (decide (k ∈ names)) as [Hin|Hnin]; [by apply H1|].
        apply elem_of_cons in Hk as [->|?]; [|done].
        exists v. split; [done|]. rewrite (H2 _ Hnin). apply lookup_insert_eq.
      * intros k Hk. apply not_elem_of_cons in Hk as [Hne Hk].
        rewrite (H2 _ Hk). by apply lookup_insert_ne.
    + done.
Qed.

Lemma gather_from_ok read names (f : string → value) (acc : gmap string value) :
  (∀ k, k ∈ names → read k = Ok (f k)) →
  ∃ p, sklearn.gather_from read names acc = Ok p.
Proof.
  revert acc.
  induction names as [|n names IH]; intros acc Hf; simpl; [eauto|].
  rewrite (Hf n) by left. simpl. apply IH. intros k Hk. apply Hf. by right.
Qed.

Lemma gather_spec read names (p : gmap string value) :
  sklearn.gather read names = Ok p ↔
  (∀ k, k ∈ names → ∃ v, read k = Ok v ∧ p !! k = Some v) ∧
  (∀ k, k ∉ names → p !! k = None).
Proof.
  unfold sklearn.gather. split.
  - intros H. apply gather_from_inv in H as [H1 H2]. split; [done|].
    intros k Hk. by rewrite (H2 _ Hk).
  - intros [H1 H2].
    destruct (gather_from_ok read names (λ k, default VNone (p !! k)) ∅)
      as [p' Hp'].
    { intros k Hk. destruct (H1 _ Hk) as (v & -> & ->). done. }
    rewrite Hp'. f_equal. apply map_eq. intros k.
    apply gather_from_inv in Hp' as [H1' H2'].
    destruct (decide (k ∈ names)) as [Hk|Hk].
    + destruct (H1 _ Hk) as (v & Hv & ->).
      destruct (H1' _ Hk) as (v' & Hv' & ->). congruence.
    + by rewrite (H2 _ Hk), (H2' _ Hk).
Qed.

Lemma get_params_shallow_spec e p :
  sklearn.get_params_shallow e = Ok p ↔
  (∀ k, k ∈ param_names (klass e) →
        ∃ v, getattr e k = Ok v ∧ p !! k = Some v) ∧
  (∀ k, k ∉ param_names (klass e) → p !! k = None).
Proof. apply gather_spec. Qed.

(** The constructor. *)
Lemma klass_foldl_setattr {A} (f : A → string) (g : A → value) l e :
  klass (foldl (λ e p, setattr e (f p) (g p)) e l) = klass e.
Proof. revert e. induction l; intros e; simpl; [done|]. by rewrite IHl. Qed.

Lemma klass_store_params c params e : klass (store_params c params e) = klass e.
Proof. apply (klass_foldl_setattr fst (λ p, default p.2 (params !! p.1))). Qed.

Lemma klass_store_extra c e : klass (store_extra c e) = klass e.
Proof. apply (klass_foldl_setattr fst snd). Qed.

Lemma klass_init e params : klass (init e params) = klass e.
Proof.
  unfold init, BaseEstimator_init. simpl.
  by rewrite klass_store_extra, klass_store_params.
Qed.

Lemma vars_foldl_setattr_notin {A} (f : A → string) (g : A → value) l e k :
  k ∉ f <$> l →
  vars (foldl (λ e p, setattr e (f p) (g p)) e l) !! k = vars e !! k.
Proof.
  revert e. induction l as [|a l IH]; intros e; simpl; [done|].
  intros [Hne Hk]%not_elem_of_cons. rewrite IH by done. simpl.
  by apply lookup_insert_ne.
Qed.

Lemma vars_store_params c params e k v :
  k ∈ param_names c → params !! k = Some v →
  vars (store_params c params e) !! k = Some v.
Proof.
  unfold store_params, param_names. revert e.
  induction (init_params c) as [|[n d] l IH]; intros e; simpl.
  - by intros ?%elem_of_nil.
  - intros Hk Hp. destruct (decide (k ∈ l.*1)) as [Hin|Hnin]; [by apply IH|].
    apply elem_of_cons in Hk as [->|?]; [|done].
    rewrite (vars_foldl_setattr_notin fst (λ p, default p.2 (params !! p.1))) by done.
    simpl. rewrite Hp. apply lookup_insert_eq.
Qed.

Lemma vars_init_param e params k v :
  k ∉ sklearn.later_assigned (klass e) →
  k ∈ param_names (klass e) → params !! k = Some v →
  vars (init e params) !! k = Some v.
Proof.
  intros Hc Hk Hp. unfold sklearn.later_assigned in Hc.
  apply not_elem_of_app in Hc as [Hx Hr].
  apply not_elem_of_cons in Hr as [Hf Hr]. apply not_elem_of_cons in Hr as [Ht _].
  unfold init, BaseEstimator_init. simpl.
  rewrite lookup_insert_ne by done. rewrite lookup_insert_ne by done.
  rewrite klass_store_params. unfold store_extra.
  rewrite (vars_foldl_setattr_notin fst snd) by done.
  by apply vars_store_params.
Qed.

Lemma is_fitted_init e params : is_fitted (init e params) = Ok (VBool false).
Proof.
  unfold is_fitted, init, BaseEstimator_init. apply getattr_vars. simpl.
  rewrite lookup_insert_ne by done. apply lookup_insert_eq.
Qed.

Lemma get_params_init e params :
  conforming (klass e) →
  (∀ k, k ∈ param_names (klass e) → is_Some (params !! k)) →
  (∀ k, k ∉ param_names (klass e) → params !! k = None) →
  sklearn.get_params_shallow (init e params) = Ok params.
Proof.
  intros Hc H1 H2. apply get_params_shallow_spec. rewrite klass_init. split; [|done].
  intros k Hk. destruct (H1 _ Hk) as [v Hv]. exists v. split; [|done].
  apply getattr_vars. apply vars_init_param; [|done..].
  unfold conforming in Hc. rewrite Forall_forall in Hc. by apply Hc.
Qed.


Lemma klass_delete_all (X : gset string) e :
  klass (set_fold (λ attr e, delattr e attr) e X) = klass e.
Proof.
  unfold set_fold. simpl. induction (elements X) as [|a l IH]; simpl; done.
Qed.

Lemma get_params_shallow_dom e p :
  sklearn.get_params_shallow e = Ok p →
  (∀ k, k ∈ param_names (klass e) → is_Some (p !! k)) ∧
  (∀ k, k ∉ param_names (klass e) → p !! k = None).
Proof.
  intros [H1 H2]%get_params_shallow_spec. split; [|done].
  intros k Hk. destruct (H1 _ Hk) as (v & _ & ->). eauto.
Qed.

Lemma reset_after_keep e params (X : gset string) :
  conforming (klass e) → sklearn.get_params_shallow e = Ok params →
  let e' := init (set_fold (λ attr e, delattr e attr) e X) params in
  sklearn.get_params false e' = Ok params ∧ is_fitted e' = Ok (VBool false).
Proof.
  intros Hc Hp e'. destruct (get_params_shallow_dom _ _ Hp) as [H1 H2].
  split; [|apply is_fitted_init].
  simpl. apply get_params_init; rewrite klass_delete_all; done.
Qed.

(** C1, as amended: for an estimator of a class that follows the
    constructor convention, [reset()] returns, and afterwards
    [get_params(deep=False)] is the mapping it was before the call and
    [is_fitted] is [False].  A constructor that overwrites a parameter
    makes [reset] return the overwritten value instead. *)
Theorem reset_keeps_params_unfitted e params :
  conforming (klass e) → sklearn.get_params false e = Ok params →
  ∃ e', reset e VNone = Ok e' ∧
        sklearn.get_params false e' = Ok params ∧
        is_fitted e' = Ok (VBool false).
Proof.
  intros Hc Hp. unfold reset. rewrite Hp. simpl.
  eexists. split; [done|]. by apply reset_after_keep.
Qed.


Lemma discard_all_hashable keep (X : gset string) :
  forallb hashable keep = true → ∃ Y, discard_all keep X = Ok Y.
Proof.
  revert X. induction keep as [|a keep IH]; intros X; simpl; [eauto|].
  intros [Ha Hk]%andb_prop. rewrite Ha. by apply IH.
Qed.

(** C8, as amended: [reset(keep=...)] raises a [TypeError] exactly for
    a [keep] that is not [None], not a [str] and not a [list]; a [list]
    is accepted whatever its items are, provided they are hashable. *)
Theorem reset_keep_type_error e params keep :
  sklearn.get_params false e = Ok params →
  (keep_rejected keep = true → reset e keep = Raise (TypeError keep_msg))
  ∧ (∀ items, keep = VList items → forallb hashable items = true →
       ∃ e', reset e keep = Ok e').
Proof.
  intros Hp. split.
  - intros Hk. unfold reset. rewrite Hp. simpl.
    destruct keep; simpl in *; done.
  - intros items -> Hh. unfold reset. rewrite Hp. simpl.
    destruct (discard_all_hashable items
      (filter no_dunder (dir_self e) ∖ dir_type (klass e)) Hh) as [Y ->].
    simpl. eauto.
Qed.

(** ** Cloning *)

Arguments init : simpl never.

Lemma for_each_ok body names :
  sklearn.for_each body names = Ok tt ↔ ∀ n, n ∈ names → body n = Ok tt.
Proof.
  induction names as [|n names IH]; simpl.
  - split; [|done]. intros _ k Hk. by apply elem_of_nil in Hk.
  - destruct (body n) as [[]|ex] eqn:Hn; simpl.
    + rewrite IH. split.
      * intros H k [->|Hk]%elem_of_cons; auto.
      * intros H k Hk. apply H. by right.
    + split; [done|]. intros H. specialize (H n). rewrite Hn in H.
      discriminate H. by left.
Qed.

Lemma same_singleton_eq v w : sklearn.same_singleton v w = true → v = w.
Proof.
  destruct v, w; simpl; try done. intros H. apply bool_decide_eq_true in H.
  by subst.
Qed.

Lemma sanity_check_stored e (nop : gmap string value) k v :
  sklearn.sanity_check (init e nop) nop = Ok tt →
  k ∈ param_names (klass e) → nop !! k = Some v →
  vars (init e nop) !! k = Some v.
Proof.
  unfold sklearn.sanity_check. rewrite for_each_ok, klass_init.
  intros H Hk Hv. specialize (H _ Hk). unfold sklearn.check_param in H.
  rewrite Hv, klass_init in H.
  destruct (decide (k ∈ sklearn.later_assigned (klass e))) as [Hl|Hl];
    [|by apply vars_init_param].
  destruct (vars (init e nop) !! k) as [w|] eqn:Hw.
  - unfold sklearn.is_same_object in H.
    rewrite bool_decide_eq_false_2 in H by (by intros ?). simpl in H.
    destruct (sklearn.same_singleton v w) eqn:Hs; [|done].
    by rewrite (same_singleton_eq _ _ Hs).
  - exfalso. revert Hw. unfold init, BaseEstimator_init. simpl.
    destruct (decide (k = "_tags_dynamic")) as [->|?];
      [by rewrite lookup_insert_eq|rewrite lookup_insert_ne by done].
    destruct (decide (k = "_is_fitted")) as [->|?];
      [by rewrite lookup_insert_eq|rewrite lookup_insert_ne by done].
    rewrite klass_store_params. unfold store_extra.
    apply elem_of_app in Hl as [Hl|Hl].
    + clear -Hl. revert Hl.
      generalize (store_params (klass e) nop e) as e0.
      induction (init_extra (klass e)) as [|[n d] l IH] using rev_ind;
        intros e0; [by intros ?%elem_of_nil|].
      rewrite fmap_app, foldl_app. simpl.
      destruct (decide (k = n)) as [->|Hne]; [by rewrite lookup_insert_eq|].
      rewrite lookup_insert_ne by done.
      intros [Hin|Hin]%elem_of_app; [by apply IH|].
      apply list_elem_of_singleton in Hin. done.
    + apply elem_of_cons in Hl as [->|Hl]; [done|].
      apply list_elem_of_singleton in Hl. done.
Qed.

Lemma sanity_check_conforming e (nop : gmap string value) :
  conforming (klass e) →
  (∀ k, k ∈ param_names (klass e) → is_Some (nop !! k)) →
  sklearn.sanity_check (init e nop) nop = Ok tt.
Proof.
  intros Hc Hn. unfold sklearn.sanity_check. rewrite for_each_ok, klass_init.
  intros k Hk. unfold sklearn.check_param. destruct (Hn _ Hk) as [v Hv].
  unfold conforming in Hc. rewrite Forall_forall in Hc.
  rewrite Hv, (vars_init_param e nop k v) by auto.
  unfold sklearn.is_same_object. rewrite klass_init.
  by rewrite bool_decide_eq_true_2 by auto.
Qed.

(** What [sklearn.clone] computes for an estimator. *)
Lemma sklearn_clone_estimator safe c a :
  kind c ≠ PlainObject →
  sklearn.clone safe (VObj c a) =
    let* params := sklearn.get_params_shallow (Estimator c a) in
    let* new_object_params :=
      sklearn.gather
        (λ name, default (Ok (VOpaque name))
                   ((sklearn.clone false <$> a) !! name))
        (param_names c) in
    let new_object := init (Estimator c ∅) new_object_params in
    let* _ := sklearn.sanity_check new_object new_object_params in
    Ok (to_value new_object).
Proof.
  intros Hk. simpl. by rewrite bool_decide_eq_true_2 by done.
Qed.

(** The clone of the value [getattr] returns for a parameter. *)
Lemma cloned_param c (a : gmap string value) name v :
  getattr (Estimator c a) name = Ok v →
  default (Ok (VOpaque name)) ((sklearn.clone false <$> a) !! name)
  = sklearn.clone false v.
Proof.
  unfold getattr. simpl. rewrite lookup_fmap.
  destruct (a !! name) as [w|]; simpl; [by intros [= ->]|].
  case_bool_decide; [|done]. by intros [= <-].
Qed.

Lemma estimator_eta e : Estimator (klass e) (vars e) = e.
Proof. by destruct e. Qed.

Lemma clone_inv e params e' :
  sklearn.get_params false e = Ok params →
  clone e = Ok e' →
  ∃ nop,
    e' = init (Estimator (klass e) ∅) nop ∧
    sklearn.get_params false e' = Ok nop ∧
    (∀ k, k ∈ param_names (klass e) →
          ∃ v v', params !! k = Some v ∧ sklearn.clone false v = Ok v'
                  ∧ nop !! k = Some v') ∧
    (∀ k, k ∉ param_names (klass e) → params !! k = None ∧ nop !! k = None).
Proof.
  destruct e as [c a]. simpl. intros Hp. unfold clone, to_value. simpl klass. simpl vars.
  destruct (decide (kind c = PlainObject)) as [Hk|Hk].
  { simpl. rewrite bool_decide_eq_false_2 by (by intros ?). done. }
  rewrite sklearn_clone_estimator by done. rewrite Hp. simpl.
  destruct (sklearn.gather _ _) as [nop|] eqn:Hg; simpl; [|done].
  destruct (sklearn.sanity_check _ _) as [[]|] eqn:Hs; simpl; [|done].
  intros Heq. assert (e' = init (Estimator c ∅) nop) as -> by (by injection Heq).
  clear Heq. exists nop.
  apply gather_spec in Hg as [G1 G2].
  apply get_params_shallow_spec in Hp as [P1 P2]. simpl in P1, P2.
  split; [done|]. split; [|split].
  - apply get_params_shallow_spec. rewrite klass_init. simpl. split; [|done].
    intros k Hin. destruct (G1 _ Hin) as (v' & _ & Hv'). exists v'. split; [|done].
    apply getattr_vars. by apply sanity_check_stored.
  - intros k Hin. destruct (P1 _ Hin) as (v & Hv & Hpv).
    destruct (G1 _ Hin) as (v' & Hc & Hv'). exists v, v'.
    rewrite (cloned_param _ _ _ _ Hv) in Hc. done.
  - intros k Hin. split; auto.
Qed.

Lemma clone_stable_params e params :
  conforming (klass e) → kind (klass e) ≠ PlainObject →
  sklearn.get_params false e = Ok params →
  map_Forall (λ _ v, sklearn.clone false v = Ok v) params →
  clone e = Ok (init (Estimator (klass e) ∅) params).
Proof.
  destruct e as [c a]. simpl. intros Hc Hk Hp Hst.
  unfold clone, to_value. simpl klass. simpl vars.
  rewrite sklearn_clone_estimator by done. rewrite Hp. cbn [bind].
  pose proof Hp as [P1 P2]%get_params_shallow_spec. simpl in P1, P2.
  assert (Hg : sklearn.gather
            (λ name, default (Ok (VOpaque name))
                       ((sklearn.clone false <$> a) !! name))
            (param_names c) = Ok params).
  { apply gather_spec. split; [|done].
    intros k Hin. destruct (P1 _ Hin) as (v & Hv & Hpv). exists v.
    split; [|done]. rewrite (cloned_param _ _ _ _ Hv). by apply (Hst k). }
  rewrite Hg. cbn [bind].
  rewrite sanity_check_conforming; [|done|].
  - cbn [bind]. unfold to_value. by destruct (init _ _).
  - intros k Hin. destruct (P1 _ Hin) as (v & _ & ->). eauto.
Qed.

(** The deep parameters are a function of the class and of the values
    [getattr] returns for the names of the signature. *)
Lemma foldl_ext_in {A B} (f g : A → B → A) (l : list B) a :
  (∀ a b, b ∈ l → f a b = g a b) → foldl f a l = foldl g a l.
Proof.
  revert a. induction l as [|b l IH]; intros a H; simpl; [done|].
  rewrite (H a b) by left. apply IH. intros. apply H. by right.
Qed.

Lemma get_params_deep_ext e1 e2 :
  klass e1 = klass e2 →
  (∀ k, k ∈ param_names (klass e1) → getattr e1 k = getattr e2 k) →
  sklearn.get_params true e1 = sklearn.get_params true e2.
Proof.
  destruct e1 as [c a1], e2 as [c2 a2]. simpl. intros <- H.
  apply foldl_ext_in. intros out key Hin. unfold sklearn.deep_step.
  destruct out as [out|]; [|done]. cbn [bind].
  specialize (H _ Hin). rewrite <- H.
  destruct (getattr (Estimator c a1) key) as [v|] eqn:Hv; [|done]. cbn [bind].
  destruct (is_sklearn_estimator v) eqn:Hs; [|done].
  revert Hv H. unfold getattr. simpl. rewrite !lookup_fmap.
  destruct (a1 !! key) as [w1|], (a2 !! key) as [w2|]; simpl.
  - by intros [= ->] [= ->].
  - intros [= ->]. case_bool_decide; [|done]. intros [= ->]. done.
  - case_bool_decide; [|done]. intros [= <-]. done.
  - done.
Qed.

(** C1 *)
Lemma reset_keeps_params_unfitted_witness :
  ∃ e', reset Examples.pipeline_fitted VNone = Ok e' ∧
        sklearn.get_params false e' =
          Ok {[ "transformer" := to_value Examples.smoother_fitted ]} ∧
        is_fitted e' = Ok (VBool false).
Proof.
  apply reset_keeps_params_unfitted.
  - compute_done.
  - vm_compute. reflexivity.
Defined.

(** C1, as the specification words it, fails for a class outside the
    constructor convention: the constructor of [Overwriting] assigns
    [self.n = 5] whatever it is given, so for the instance whose [n] is
    [7] [reset()] returns, and [get_params(deep=False)] is [{n: 5}]
    afterwards where it was [{n: 7}] before. *)
Lemma reset_changes_reassigned_parameter :
  ¬ conforming MoreExamples.Overwriting ∧
  sklearn.get_params false MoreExamples.overwriting
    = Ok {[ "n" := VInt 7 ]} ∧
  ∃ e', reset MoreExamples.overwriting VNone = Ok e' ∧
        sklearn.get_params false e' = Ok {[ "n" := VInt 5 ]} ∧
        sklearn.get_params false e'
          ≠ sklearn.get_params false MoreExamples.overwriting.
Proof.
  assert (H1 : sklearn.get_params false MoreExamples.overwriting
               = Ok {[ "n" := VInt 7 ]}) by (vm_compute; reflexivity).
  assert (H2 : match reset MoreExamples.overwriting VNone with
               | Ok e' => sklearn.get_params false e'
               | Raise ex => Raise ex
               end = Ok {[ "n" := VInt 5 ]}) by (vm_compute; reflexivity).
  split; [compute_done|]. split; [exact H1|].
  destruct (reset MoreExamples.overwriting VNone) as [e'|];
    [|discriminate H2].
  cbv beta iota in H2.
  exists e'. split; [reflexivity|]. split; [exact H2|].
  rewrite H1, H2. intros H. discriminate H.
Qed.

(** ** Fitted parameters *)

#[global] Instance nested_key_inj c : Inj (=) (=) (nested_key c).
Proof.
  intros k1 k2. unfold nested_key. intros H.
  by do 2 apply String.app_inj in H.
Qed.

Lemma map_depth_bound (m : gmap string value) b :
  (∀ k v, m !! k = Some v → depth v ≤ b) → map_depth m ≤ b.
Proof.
  unfold map_depth.
  apply (map_fold_weak_ind
           (λ r m, (∀ k v, m !! k = Some v → depth v ≤ b) → r ≤ b)).
  - lia.
  - intros i x m' r Hi IH H.
    assert (depth x ≤ b) by (apply (H i); apply lookup_insert_eq).
    assert (r ≤ b); [|lia]. apply IH. intros k v Hk. apply (H k).
    rewrite lookup_insert_ne; [done|]. intros ->. congruence.
Qed.

(** Every value [_get_fitted_params_default] returns for an object is an
    attribute of it. *)
Lemma fitted_default_depth self c a k v :
  _get_fitted_params_default self (VObj c a) !! k = Some v →
  depth v < depth (VObj c a).
Proof.
  unfold _get_fitted_params_default. simpl truthy. cbv iota. simpl as_estimator.
  cbv iota.
  generalize (filter is_fitted_attr (dir_self (Estimator c a))) as X.
  intros X. revert k v.
  apply (set_fold_ind_L
    (λ r (_ : gset string), ∀ k v, r !! k = Some v → depth v < depth (VObj c a))).
  - intros k v. by rewrite lookup_empty.
  - intros p Y r _ IH k v. unfold getattr. simpl vars.
    destruct (a !! p) as [w|] eqn:Hw.
    + rewrite lookup_insert_Some. intros [[_ <-]|[_ Hr]]; [|by eapply IH].
      apply depth_lookup in Hw. unfold map_depth in Hw. simpl. lia.
    + case_bool_decide; [|by apply IH].
      rewrite lookup_insert_Some. intros [[_ <-]|[_ Hr]]; [|by eapply IH].
      simpl. lia.
Qed.

Lemma sklearn_pass_values self old k v :
  sklearn_pass self old !! k = Some v →
  ∃ c comp, old !! c = Some comp ∧ depth v < depth comp.
Proof.
  unfold sklearn_pass. revert k v.
  apply (map_fold_weak_ind
    (λ r (m : gmap string value), ∀ k v, r !! k = Some v →
       ∃ c comp, m !! c = Some comp ∧ depth v < depth comp)).
  - intros k v. by rewrite lookup_empty.
  - intros c comp m r Hc IH k v.
    assert (Hold : r !! k = Some v →
      ∃ c0 comp0, <[c:=comp]> m !! c0 = Some comp0 ∧ depth v < depth comp0).
    { intros Hr. destruct (IH _ _ Hr) as (c0 & comp0 & H0 & Hd).
      exists c0, comp0. split; [|done]. rewrite lookup_insert_ne; [done|].
      intros ->. congruence. }
    destruct (is_sklearn_estimator comp) eqn:Hs; [|done].
    unfold dict_update. rewrite lookup_union_Some_raw.
    intros [Hn|[_ Hr]]; [|by apply Hold].
    unfold namespaced in Hn. apply lookup_kmap_Some in Hn as (k' & _ & Hk');
      [|apply _].
    exists c, comp. split; [apply lookup_insert_eq|].
    destruct comp; try done. by eapply fitted_default_depth.
Qed.

Lemma sklearn_pass_depth self old :
  sklearn_pass self old ≠ ∅ →
  map_depth (sklearn_pass self old) < map_depth old.
Proof.
  intros Hne. apply map_choose in Hne as (k & v & Hkv).
  destruct (sklearn_pass_values _ _ _ _ Hkv) as (c & comp & Hc & Hd).
  apply depth_lookup in Hc.
  assert (map_depth (sklearn_pass self old) ≤ map_depth old - 1); [|lia].
  apply map_depth_bound. intros k' v' Hk'.
  destruct (sklearn_pass_values _ _ _ _ Hk') as (c' & comp' & Hc' & Hd').
  apply depth_lookup in Hc'. lia.
Qed.

(** The [while] loop ends: every pass looks one level deeper into the
    values of the previous one. *)
Lemma sklearn_loop_terminates n self old fitted_params :
  map_depth old < n → is_Some (sklearn_loop n self old fitted_params).
Proof.
  revert old fitted_params. induction n as [|n IH]; intros old fp Hn; [lia|].
  simpl. case_bool_decide as Hsz; [|eauto].
  apply IH. assert (sklearn_pass self old ≠ ∅).
  { intros He. rewrite He, map_size_empty in Hsz. lia. }
  pose proof (sklearn_pass_depth self old H). lia.
Qed.

Lemma sklearn_loop_dom n self old fitted_params r :
  sklearn_loop n self old fitted_params = Some r →
  dom fitted_params ⊆ dom r.
Proof.
  revert old fitted_params. induction n as [|n IH]; intros old fp; [done|].
  simpl. case_bool_decide.
  - intros H'. apply IH in H'. unfold dict_update in H'.
    rewrite dom_union_L in H'. set_solver.
  - intros [= <-]. unfold dict_update. rewrite dom_union_L. set_solver.
Qed.



Lemma get_fitted_params_unfold deep cl a :
  get_fitted_params_value deep (VObj cl a) =
    let self := Estimator cl a in
    let* fitted := is_fitted self in
    if negb (truthy fitted)
    then Raise (NotFittedError (get_fitted_msg (cname cl)))
    else
      let fitted_params := _get_fitted_params self in
      if negb deep then Ok fitted_params
      else
        let calls := get_fitted_params_value true <$> a in
        let* c_dict := _components self in
        let* fitted_params :=
          map_fold (add_component calls) (Ok fitted_params) c_dict in
        match sklearn_loop (S (map_depth fitted_params)) self
                fitted_params fitted_params with
        | Some fitted_params => Ok fitted_params
        | None => Raise (RuntimeError "the loop did not end")
        end.
Proof. reflexivity. Qed.



(** The model never gives up on the [while] loop: no call of
    [get_fitted_params] raises the [RuntimeError] that stands for it. *)
Lemma gather_from_error read names (acc : gmap string value) ex :
  sklearn.gather_from read names acc = Raise ex →
  ∃ k, k ∈ names ∧ read k = Raise ex.
Proof.
  revert acc. induction names as [|n names IH]; intros acc; simpl; [done|].
  destruct (read n) as [v|ex'] eqn:Hn; simpl.
  - intros H. destruct (IH _ H) as (k & Hk & Hr). exists k. split; [by right|done].
  - intros [= <-]. exists n. split; [by left|done].
Qed.

Lemma getattr_error e k ex : getattr e k = Raise ex → ex = AttributeError k.
Proof.
  unfold getattr. destruct (vars e !! k); [done|].
  case_bool_decide; [done|]. by intros [= <-].
Qed.

Lemma components_fold_error calls (c_dict : gmap string value) acc ex :
  map_fold (add_component calls) acc c_dict = Raise ex →
  acc = Raise ex ∨ (∃ k, ex = AttributeError k) ∨
  (∃ c, calls !! c = Some (Raise ex)).
Proof.
  apply (map_fold_weak_ind
    (λ r (m : gmap string value), r = Raise ex →
       acc = Raise ex ∨ (∃ k, ex = AttributeError k) ∨
       (∃ c, calls !! c = Some (Raise ex)))).
  - auto.
  - intros c comp m r _ IH. unfold add_component.
    destruct r as [fp|]; [|done]. cbn [bind].
    destruct (is_aeon_estimator comp); [|done].
    destruct (value_is_fitted comp) as [f|] eqn:Hf; cbn [bind].
    + destruct (truthy f); [|done].
      destruct (calls !! c) as [[cf|]|] eqn:Hc; simpl; try done.
      intros [= ->]. eauto.
    + intros [= ->]. right. left. revert Hf. unfold value_is_fitted.
      destruct (as_estimator comp); [|intros [= <-]; eauto].
      intros ->%getattr_error. eauto.
Qed.

Lemma get_fitted_params_loop_ends v deep msg :
  get_fitted_params_value deep v ≠ Raise (RuntimeError msg).
Proof.
  revert deep. induction v as [| | | | | |cl a IH|] using value_nested_ind;
    intros deep; try done.
  rewrite get_fitted_params_unfold. cbv zeta.
  destruct (is_fitted (Estimator cl a)) as [fitted|] eqn:Hfit; cbn [bind].
  2:{ apply getattr_error in Hfit. by subst. }
  destruct (negb (truthy fitted)); [done|]. destruct (negb deep); [done|].
  cbv iota.
  destruct (_components (Estimator cl a)) as [c_dict|] eqn:Hcd; cbn [bind].
  2:{ revert Hcd. unfold _components.
      destruct (sklearn.get_params false (Estimator cl a)) eqn:Hp; [done|].
      apply gather_from_error in Hp as (k & _ & ->%getattr_error).
      by intros [= <-]. }
  destruct (map_fold _ _ c_dict) as [fp1|] eqn:Hfold; cbn [bind].
  - pose proof (sklearn_loop_terminates (S (map_depth fp1))
                  (Estimator cl a) fp1 fp1 ltac:(lia)) as [r ->]. done.
  - apply components_fold_error in Hfold as [?|[[k ->]|[c Hc]]]; [done|done|].
    rewrite lookup_fmap in Hc. destruct (a !! c) as [w|] eqn:Hw; [|done].
    simpl in Hc. injection Hc as Hc. intros [= ->].
    by apply (IH c w Hw true).
Qed.

(** ** The pickle machine *)

Section pickle_round_trip.
Import pickle.
#[local] Open Scope list_scope.

Lemma pop_mark_values (xs : list value) below acc :
  pop_mark (reverse (IVal <$> xs) ++ IMark :: below) acc
  = Some ((IVal <$> xs) ++ acc, below).
Proof.
  revert acc. induction xs as [|x xs IH] using rev_ind; intros acc.
  - done.
  - rewrite fmap_app, reverse_app. simpl. rewrite IH.
    by rewrite <- app_assoc.
Qed.

Lemma as_values_fmap xs : as_values (IVal <$> xs) = Some xs.
Proof. induction xs as [|x xs IH]; csimpl; [done|]. by rewrite IH. Qed.

Lemma pop_mark_entries entries below acc :
  pop_mark (reverse (entry_items entries) ++ IMark :: below) acc
  = Some (entry_items entries ++ acc, below).
Proof.
  revert acc. induction entries as [|[k v] l IH] using rev_ind; intros acc.
  - done.
  - unfold entry_items. rewrite bind_app, reverse_app. simpl.
    fold (entry_items l). rewrite IH. by rewrite <- app_assoc.
Qed.

Lemma as_entries_items entries :
  as_entries (entry_items entries) = Some entries.
Proof.
  induction entries as [|[k v] l IH]; simpl; [done|].
  fold (entry_items l). by rewrite IH.
Qed.

Lemma set_items_lookup entries (d : gmap string value) k :
  NoDup entries.*1 →
  set_items d entries !! k =
    match list_to_map (M := gmap string value) entries !! k with
    | Some v => Some v
    | None => d !! k
    end.
Proof.
  unfold set_items. revert d.
  induction entries as [|[k' v'] l IH]; intros d Hnd; simpl.
  - by rewrite lookup_empty.
  - apply NoDup_cons in Hnd as [Hk' Hnd]. rewrite IH by done.
    destruct (decide (k = k')) as [->|Hne].
    + rewrite lookup_insert_eq.
      rewrite (not_elem_of_list_to_map_1 l k') by done.
      by rewrite lookup_insert_eq.
    + rewrite !lookup_insert_ne by done. done.
Qed.

Lemma set_items_entries (d : gmap string value) entries :
  NoDup entries.*1 →
  (∀ k v, (k, v) ∈ entries → d !! k = Some v) →
  (∀ k, is_Some (d !! k) → k ∈ entries.*1) →
  set_items ∅ entries = d.
Proof.
  intros Hnd Hin Hdom. apply map_eq. intros k.
  rewrite set_items_lookup by done. rewrite lookup_empty.
  destruct (list_to_map entries !! k) as [v|] eqn:Hk.
  - apply elem_of_list_to_map in Hk; [|done]. symmetry. by apply Hin.
  - apply not_elem_of_list_to_map in Hk.
    destruct (d !! k) eqn:Hd; [|done]. exfalso. apply Hk, Hdom. eauto.
Qed.

Lemma run_app_step op ops stack :
  op ≠ STOP →
  run (op :: ops) stack = let* stack := step op stack in run ops stack.
Proof. by destruct op. Qed.

Lemma save_items_cons r saved items :
  save_items (r :: saved) = Ok items →
  ∃ ops items', r = Ok ops ∧ save_items saved = Ok items'
                ∧ items = ops ++ items'.
Proof.
  unfold save_items. simpl. destruct r as [ops|]; [|done]. simpl.
  destruct (list_sequence saved) as [parts|]; [|done]. simpl.
  intros [= <-]. eauto.
Qed.

Lemma run_items xs items :
  Forall pushes xs →
  save_items (save <$> xs) = Ok items →
  ∀ rest stack,
    run (items ++ rest) stack = run rest (reverse (IVal <$> xs) ++ stack).
Proof.
  intros Hxs. revert items. induction Hxs as [|x xs Hx _ IH]; intros items.
  - intros [= <-]. done.
  - rewrite fmap_cons. intros (ops & items' & Hs & Hi & ->)%save_items_cons.
    intros rest stack. rewrite <- app_assoc, (Hx _ Hs), (IH _ Hi).
    rewrite fmap_cons, reverse_cons, <- app_assoc. done.
Qed.

Lemma run_entries (d : gmap string value)
    (saved : list (string * result stream)) items :
  map_Forall (λ _, pushes) d →
  (∀ k r, (k, r) ∈ saved → ∃ v, d !! k = Some v ∧ r = save v) →
  save_entries saved = Ok items →
  ∃ entries,
    entries.*1 = saved.*1 ∧
    (∀ k v, (k, v) ∈ entries → d !! k = Some v) ∧
    ∀ rest stack,
      run (items ++ rest) stack
      = run rest (reverse (entry_items entries) ++ stack).
Proof.
  intros Hd. revert items.
  induction saved as [|[k r] saved IH]; intros items Hin.
  - intros [= <-]. exists []. split; [done|]. split; [|done].
    intros k v Hk. by apply elem_of_nil in Hk.
  - unfold save_entries. rewrite fmap_cons.
    intros (ops & items' & Hs & Hi & ->)%save_items_cons. simpl in Hs.
    destruct (Hin k r) as (v & Hv & ->); [by left|].
    destruct (save v) as [ops_v|] eqn:Hsv; [|done]. simpl in Hs.
    injection Hs as <-.
    destruct (IH items') as (entries & Hk & He & Hrun); [|done|].
    { intros k' r' Hk'. apply Hin. by right. }
    exists ((k, v) :: entries). split; [by rewrite !fmap_cons, Hk|]. split.
    + intros k' v' [[= -> ->]|Hk']%elem_of_cons; [done|by apply He].
    + intros rest stack. simpl.
      rewrite <- app_assoc, (Hd k v Hv _ Hsv), Hrun.
      unfold entry_items at 2. simpl. fold (entry_items entries).
      rewrite !reverse_cons, <- !app_assoc. done.
Qed.

Lemma run_dict (d : gmap string value) items :
  map_Forall (λ _, pushes) d →
  save_entries (map_to_list (save <$> d)) = Ok items →
  ∀ rest stack,
    run ([EMPTY_DICT; MARK] ++ items ++ [SETITEMS] ++ rest) stack
    = run rest (IVal (VDict d) :: stack).
Proof.
  intros Hd Hs rest stack.
  destruct (run_entries d (map_to_list (save <$> d)) items Hd)
    as (entries & Hk & He & Hrun); [|done|].
  { intros k r Hkr. apply elem_of_map_to_list in Hkr.
    rewrite lookup_fmap in Hkr. destruct (d !! k) as [v|]; [|done].
    injection Hkr as <-. eauto. }
  simpl. rewrite Hrun. simpl.
  rewrite pop_mark_entries, app_nil_r, as_entries_items. simpl.
  rewrite (set_items_entries d); [done| | |].
  - rewrite Hk. apply NoDup_fst_map_to_list.
  - done.
  - intros k Hsome. rewrite Hk. apply list_elem_of_fmap.
    destruct Hsome as [v Hv]. exists (k, save v). split; [done|].
    apply elem_of_map_to_list. by rewrite lookup_fmap, Hv.
Qed.

Lemma run_list xs items :
  Forall pushes xs →
  save_items (save <$> xs) = Ok items →
  ∀ rest stack,
    run ([EMPTY_LIST; MARK] ++ items ++ [APPENDS] ++ rest) stack
    = run rest (IVal (VList xs) :: stack).
Proof.
  intros Hxs Hi rest stack. simpl. rewrite (run_items xs items Hxs Hi).
  simpl. by rewrite pop_mark_values, app_nil_r, as_values_fmap.
Qed.

Lemma run_object c (a : gmap string value) items :
  map_Forall (λ _, pushes) a →
  save_entries (map_to_list (save <$> a)) = Ok items →
  ∀ rest stack,
    run ([GLOBAL c; EMPTY_TUPLE; NEWOBJ]
         ++ [EMPTY_DICT; MARK] ++ items ++ [SETITEMS] ++ [BUILD] ++ rest)
        stack
    = run rest (IVal (VObj c a) :: stack).
Proof.
  intros Ha Hi rest stack.
  change (run ([GLOBAL c; EMPTY_TUPLE; NEWOBJ] ++ ?l) stack)
    with (run l (IVal (VObj c ∅) :: stack)).
  rewrite (run_dict a items Ha Hi). simpl.
  unfold dict_update. by rewrite (right_id_L ∅ (∪)).
Qed.

Lemma save_pushes v : pushes v.
Proof.
  induction v as [|b|n|s|xs IH|d IH|c a IH|name] using value_nested_ind;
    intros ops Hs rest stack; simpl in Hs.
  - by injection Hs as <-.
  - destruct b; by injection Hs as <-.
  - by injection Hs as <-.
  - by injection Hs as <-.
  - destruct (save_items (save <$> xs)) as [items|] eqn:Hi; [|done].
    simpl in Hs. injection Hs as <-.
    rewrite <- (run_list xs items IH Hi rest stack).
    f_equal. simpl. by rewrite <- app_assoc.
  - destruct (save_entries _) as [items|] eqn:Hi; [|done].
    simpl in Hs. injection Hs as <-.
    rewrite <- (run_dict d items IH Hi rest stack).
    f_equal. simpl. by rewrite <- app_assoc.
  - destruct (save_entries _) as [items|] eqn:Hi; [|done].
    simpl in Hs. injection Hs as <-.
    rewrite <- (run_object c a items IH Hi rest stack).
    f_equal. simpl. by rewrite <- !app_assoc.
  - destruct (importable name) eqn:Hn; [|done]. injection Hs as <-.
    simpl. by rewrite Hn.
Qed.

Lemma loads_dumps v serial : dumps v = Ok serial → loads serial = Ok v.
Proof.
  unfold dumps, loads. destruct (save v) as [ops|] eqn:Hs; [|done].
  simpl. intros [= <-]. simpl. by rewrite (save_pushes v ops Hs).
Qed.
End pickle_round_trip.

(** C4: when [save(None)] returns [(type(E), serial)],
    [load_from_serial(serial)] returns an object equal to [E]: same
    class, same attributes, hence the same [get_params(deep=False)] and
    the same fitted flag, for a fitted and for an unfitted [E]. *)
Theorem serial_round_trip e t serial :
  save e = Ok (t, serial) →
  t = klass e ∧
  ∃ e', load_from_serial serial = Ok (to_value e') ∧
        e' = e ∧
        sklearn.get_params false e' = sklearn.get_params false e ∧
        is_fitted e' = is_fitted e.
Proof.
  unfold save, load_from_serial.
  destruct (pickle.dumps (to_value e)) as [s|] eqn:Hd; [|done]. simpl.
  intros [= <- <-]. split; [done|]. exists e.
  by rewrite (loads_dumps _ _ Hd).
Qed.

(** ** The store-level model *)

Module StoreFacts.
Import Store.
















(** *** What a copy looks like *)









End StoreFacts.

Module StoreTags.
Import Store StoreFacts.









End StoreTags.

(** ** Values that clone to themselves *)

Lemma list_sequence_ok {A} (xs : list A) :
  list_sequence (Ok <$> xs) = Ok xs.
Proof. induction xs as [|x xs IH]; csimpl; [done|]. by rewrite IH. Qed.

Lemma map_sequence_ok {A} (m : gmap string A) :
  map_sequence (Ok <$> m) = Ok m.
Proof.
  unfold map_sequence. induction m as [|k x m Hk Hfold IH] using map_fold_fmap_ind.
  - by rewrite fmap_empty, map_fold_empty.
  - rewrite fmap_insert, Hfold, IH. done.
Qed.

Lemma map_fold_and_lookup (f : value → bool) (d : gmap string value) :
  map_fold (λ _ x b, f x && b) true d = true →
  ∀ k x, d !! k = Some x → f x = true.
Proof.
  apply (map_fold_weak_ind
    (λ r (m : gmap string value), r = true →
       ∀ k x, m !! k = Some x → f x = true)).
  - intros _ k x. by rewrite lookup_empty.
  - intros i y m r Hi IH [Hy Hr]%andb_prop k x.
    rewrite lookup_insert_Some. intros [[_ <-]|[_ Hk]]; [done|]. by eapply IH.
Qed.

Lemma clone_estimator_free v :
  estimator_free v = true → sklearn.clone false v = Ok v.
Proof.
  induction v as [| | | |xs IH|d IH|c a IH|] using value_nested_ind;
    intros Hf; try done.
  - simpl in *. replace (sklearn.clone false <$> xs) with (Ok <$> xs).
    { by rewrite list_sequence_ok. }
    apply list_fmap_ext. intros i x Hx. symmetry.
    rewrite Forall_forall in IH. apply IH; [by eapply list_elem_of_lookup_2|].
    rewrite forallb_forall in Hf. apply Hf. apply list_elem_of_In.
    by eapply list_elem_of_lookup_2.
  - simpl in *. replace (sklearn.clone false <$> d) with (Ok <$> d).
    { by rewrite map_sequence_ok. }
    apply map_fmap_ext. intros k x Hx. symmetry. apply (IH k x Hx).
    by eapply map_fold_and_lookup.
  - simpl in *. apply bool_decide_eq_true in Hf.
    rewrite bool_decide_eq_false_2 by (by intros ?).
    by rewrite deepcopy_fmap_id.
Qed.

(** ** The statements about the tags *)

(** C5, as amended: a tag name absent from the merged mapping yields the
    supplied default when the raise flag is unset, for [get_class_tag] and
    for [get_tag] alike, and a [ValueError] that names the tag when the flag
    is set, which it is by default for [get_tag] and is not for
    [get_class_tag]; a [ValueError] is not a [LookupError]. *)
Theorem tag_lookup_missing c e name tag_value_default tags :
  name ∉ dom (get_class_tags c) →
  get_tags e = Ok tags → name ∉ dom tags →
  get_class_tag c name tag_value_default false = Ok tag_value_default ∧
  get_class_tag c name tag_value_default true
    = Raise (ValueError (tag_not_found name)) ∧
  get_tag e name tag_value_default false = Ok tag_value_default ∧
  get_tag e name tag_value_default true
    = Raise (ValueError (tag_not_found name)) ∧
  get_class_tag_by_name c name = Ok VNone ∧
  get_tag_by_name e name = Raise (ValueError (tag_not_found name)) ∧
  exn_isinstance (ValueError (tag_not_found name)) CValueError = true ∧
  exn_isinstance (ValueError (tag_not_found name)) CLookupError = false.
Proof.
  intros Hc%not_elem_of_dom Hg Ht%not_elem_of_dom.
  unfold get_class_tag_by_name, get_tag_by_name, get_class_tag, get_tag.
  unfold get_class_tag_raise_error_default, get_tag_raise_error_default.
  rewrite Hg. cbn [bind].
  destruct (lookup_tag_absent (get_class_tags c) name tag_value_default Hc)
    as [-> ->].
  destruct (lookup_tag_absent tags name tag_value_default Ht) as [-> ->].
  destruct (lookup_tag_absent (get_class_tags c) name
              tag_value_default_default Hc) as [-> _].
  destruct (lookup_tag_absent tags name tag_value_default_default Ht)
    as [_ ->].
  done.
Qed.

Lemma tag_lookup_missing_witness :
  get_class_tag Examples.Smoother "no_such_tag" (VInt 7) false
    = Ok (VInt 7) ∧
  get_tag Examples.smoother "no_such_tag" (VInt 7) true
    = Raise (ValueError (tag_not_found "no_such_tag")).
Proof.
  destruct (tag_lookup_missing Examples.Smoother Examples.smoother
              "no_such_tag" (VInt 7)
              (get_class_tags Examples.Smoother))
    as (H1 & _ & _ & H4 & _).
  - compute_done.
  - vm_compute. reflexivity.
  - compute_done.
  - split; [exact H1|exact H4].
Defined.

(** The specification's "LookupError-class error" fails on the code. *)
Lemma missing_tag_raises_value_error :
  ∃ ex, get_class_tag Examples.BaseEstimator "no_such_tag" VNone true
        = Raise ex ∧
        exn_isinstance ex CLookupError = false.
Proof. eexists. split; [vm_compute; reflexivity|reflexivity]. Qed.

(** C9: [set_tags] changes the dynamic overrides of the instance and
    nothing else: the class, hence every class-level tag, and every other
    attribute are as before, while [get_tag] returns what was set; with the
    class default [False] for ["capability:missing_values"] and the tag set
    to [True], [get_tag] is [True] and [get_class_tag] still [False]. *)
Theorem set_tags_overrides_instance_only e tag_dict e' :
  set_tags e tag_dict = Ok e' →
  klass e' = klass e ∧
  get_class_tags (klass e') = get_class_tags (klass e) ∧
  (∀ k, k ≠ "_tags_dynamic" → vars e' !! k = vars e !! k) ∧
  (∀ name d r,
     get_class_tag (klass e') name d r = get_class_tag (klass e) name d r) ∧
  (∀ name v d r, tag_dict !! name = Some v → get_tag e' name d r = Ok v) ∧
  (tag_dict = {[ "capability:missing_values" := VBool true ]} →
   get_class_tags (klass e) !! "capability:missing_values"
     = Some (VBool false) →
   ∀ d r d' r',
     get_tag e' "capability:missing_values" d r = Ok (VBool true) ∧
     get_class_tag (klass e') "capability:missing_values" d' r'
       = Ok (VBool false)).
Proof.
  intros Hs. destruct (set_tags_dynamic _ _ _ Hs) as (Hk & D & Hv & HD).
  split; [done|]. split; [by rewrite Hk|]. split.
  { intros k Hne. rewrite Hv. by apply lookup_insert_ne. }
  split; [by rewrite Hk|]. split.
  { intros. by eapply set_tags_get_tag. }
  intros -> Hcls d r d' r'. split.
  - eapply set_tags_get_tag; [done|]. apply lookup_singleton_eq.
  - rewrite Hk. unfold get_class_tag. by apply lookup_tag_present.
Qed.

Lemma set_tags_overrides_instance_only_witness :
  ∃ e', set_tags Examples.base_estimator
          {[ "capability:missing_values" := VBool true ]} = Ok e' ∧
        get_tag e' "capability:missing_values" VNone true
          = Ok (VBool true) ∧
        get_class_tag (klass e') "capability:missing_values" VNone false
          = Ok (VBool false).
Proof.
  destruct (set_tags Examples.base_estimator
              {[ "capability:missing_values" := VBool true ]})
    as [e'|] eqn:Hs; [|by vm_compute in Hs].
  exists e'. split; [done|].
  destruct (set_tags_overrides_instance_only _ _ _ Hs)
    as (_ & _ & _ & _ & _ & H).
  apply H; [done|]. vm_compute. reflexivity.
Defined.

(** ** The statements about the fitted state *)

Lemma startswith_append p s : startswith p (p +:+ s) = true.
Proof.
  induction p as [|a p IH]; simpl; [done|].
  by rewrite bool_decide_eq_true_2, IH.
Qed.

Lemma str_contains_prefix p s : startswith p s = true → str_contains p s = true.
Proof. intros H. destruct s; simpl; by rewrite H. Qed.

Lemma str_contains_append a p b : str_contains p (a +:+ p +:+ b) = true.
Proof.
  induction a as [|c a IH].
  - change (str_contains p (p +:+ b) = true).
    apply str_contains_prefix, startswith_append.
  - change (String c a +:+ p +:+ b) with (String c (a +:+ p +:+ b)).
    simpl. rewrite IH. apply orb_true_r.
Qed.

(** C6: [check_is_fitted] raises [NotFittedError], with a message that
    contains the name of the concrete class, exactly when the fitted flag is
    read and is false: it raises on every instance as its constructor
    leaves it, and returns once the flag is [True], as a successful [fit]
    leaves it. *)
Theorem check_is_fitted_iff e :
  (check_is_fitted e
     = Raise (NotFittedError (not_fitted_msg (cname (klass e))))
   ↔ ∃ flag, is_fitted e = Ok flag ∧ truthy flag = false) ∧
  (∀ ex, check_is_fitted e = Raise ex →
         exn_isinstance ex CNotFittedError = true ∨ is_fitted e = Raise ex) ∧
  str_contains (cname (klass e)) (not_fitted_msg (cname (klass e))) = true ∧
  (∀ params,
     check_is_fitted (init e params)
     = Raise (NotFittedError (not_fitted_msg (cname (klass e))))) ∧
  (∀ flag, is_fitted e = Ok flag → truthy flag = true →
           check_is_fitted e = Ok tt).
Proof.
  split; [|split; [|split; [|split]]].
  - unfold check_is_fitted. split.
    + destruct (is_fitted e) as [flag|ex] eqn:Hf; simpl.
      * destruct (truthy flag) eqn:Ht; simpl; [done|]. eauto.
      * apply getattr_error in Hf as ->. done.
    + intros (flag & -> & Ht). simpl. by rewrite Ht.
  - intros ex. unfold check_is_fitted.
    destruct (is_fitted e) as [flag|ex'] eqn:Hf; simpl.
    + destruct (truthy flag); simpl; [done|]. intros [= <-]. by left.
    + intros [= ->]. by right.
  - unfold not_fitted_msg. apply str_contains_append.
  - intros params. unfold check_is_fitted.
    by rewrite is_fitted_init, klass_init.
  - intros flag Hf Ht. unfold check_is_fitted. rewrite Hf. simpl.
    by rewrite Ht.
Qed.

Lemma check_is_fitted_iff_witness :
  check_is_fitted Examples.smoother
    = Raise (NotFittedError
               (not_fitted_msg (cname (klass Examples.smoother)))) ∧
  check_is_fitted Examples.smoother_fitted = Ok tt.
Proof.
  split.
  - apply check_is_fitted_iff. exists (VBool false).
    split; vm_compute; reflexivity.
  - destruct (check_is_fitted_iff Examples.smoother_fitted)
      as (_ & _ & _ & _ & H).
    apply (H (VBool true)); vm_compute; reflexivity.
Defined.

(** ** Witnesses and counterexamples *)

Lemma tags_merge_and_override_witness :
  dom (get_class_tags Examples.Smoother)
    ⊆ dom (BaseEstimator_tags ∪ Examples.smoother_tags) ∧
  ∃ e', set_tags Examples.smoother {[ "fit_is_empty" := VBool false ]}
          = Ok e' ∧
        get_tag e' "fit_is_empty" VNone true = Ok (VBool false).
Proof.
  destruct (tags_merge_and_override Examples.smoother)
    as (Hdom & _ & _ & Hset).
  split.
  - apply (Hdom (BaseEstimator_tags ∪ Examples.smoother_tags)).
    vm_compute. reflexivity.
  - destruct (set_tags Examples.smoother {[ "fit_is_empty" := VBool false ]})
      as [e'|] eqn:Hs; [|by vm_compute in Hs].
    exists e'. split; [done|]. eapply Hset; [exact Hs|].
    apply lookup_singleton_eq.
Defined.

Lemma reset_keep_type_error_witness :
  reset Examples.pipeline_fitted (VInt 3) = Raise (TypeError keep_msg) ∧
  reset Examples.pipeline_fitted (VDict ∅) = Raise (TypeError keep_msg).
Proof.
  split.
  - eapply reset_keep_type_error; [vm_compute; reflexivity|reflexivity].
  - eapply reset_keep_type_error; [vm_compute; reflexivity|reflexivity].
Defined.

(** [keep=[1]] is neither a string nor a list of strings, and [reset]
    returns; so it does for [keep=None]. *)
Lemma reset_accepts_other_lists :
  str_or_list_of_str (VList [VInt 1]) = false ∧
  str_or_list_of_str VNone = false ∧
  is_ok (reset Examples.pipeline_fitted (VList [VInt 1])) = true ∧
  is_ok (reset Examples.pipeline_fitted VNone) = true.
Proof. repeat split; vm_compute; reflexivity. Qed.

(** C3, as amended: when [clone] returns, the clone is unfitted, of the
    class of [E], and each of its hyper-parameters is
    [sklearn.clone(value, safe=False)] of the value [E] has, which is an
    unfitted clone for an estimator and a deep copy otherwise; when every
    hyper-parameter of [E] is its own clone, as every value without an
    estimator in it is, [clone] returns and [get_params()] of the clone
    equals [E.get_params()]. *)
Theorem clone_params_unfitted e params :
  conforming (klass e) → kind (klass e) ≠ PlainObject →
  sklearn.get_params false e = Ok params →
  (∀ e', clone e = Ok e' →
     klass e' = klass e ∧ is_fitted e' = Ok (VBool false) ∧
     ∃ params', sklearn.get_params false e' = Ok params' ∧
       ∀ k, match params !! k with
            | Some v => ∃ v', sklearn.clone false v = Ok v' ∧
                              params' !! k = Some v'
            | None => params' !! k = None
            end) ∧
  (map_Forall (λ _ v, sklearn.clone false v = Ok v) params →
   ∃ e', clone e = Ok e' ∧ is_fitted e' = Ok (VBool false) ∧
         sklearn.get_params false e' = Ok params ∧
         sklearn.get_params true e' = sklearn.get_params true e) ∧
  (∀ v, estimator_free v = true → sklearn.clone false v = Ok v).
Proof.
  intros Hc Hk Hp. split; [|split; [|apply clone_estimator_free]].
  - intros e' He'.
    destruct (clone_inv _ _ _ Hp He') as (nop & -> & Hnop & Hin & Hout).
    split; [by rewrite klass_init|]. split; [apply is_fitted_init|].
    exists nop. split; [done|]. intros k.
    destruct (decide (k ∈ param_names (klass e))) as [Hk'|Hk'].
    + destruct (Hin _ Hk') as (v & v' & -> & ? & ?). eauto.
    + destruct (Hout _ Hk') as [-> ?]. done.
  - intros Hst. rewrite (clone_stable_params _ _ Hc Hk Hp Hst).
    eexists. split; [done|]. split; [apply is_fitted_init|].
    pose proof Hp as [P1 P2]%get_params_shallow_dom.
    assert (Hp' : sklearn.get_params false
                    (init (Estimator (klass e) ∅) params) = Ok params).
    { by apply get_params_init. }
    split; [done|].
    apply get_params_deep_ext; [by rewrite klass_init|].
    rewrite klass_init. simpl. intros k Hk'.
    apply get_params_shallow_spec in Hp as [Q1 _].
    apply get_params_shallow_spec in Hp' as [Q1' _].
    rewrite klass_init in Q1'. simpl in Q1'.
    destruct (Q1 _ Hk') as (v & -> & Hv).
    destruct (Q1' _ Hk') as (v' & -> & Hv'). congruence.
Qed.

Lemma clone_params_unfitted_witness :
  ∃ e', clone Examples.smoother_fitted = Ok e' ∧
        is_fitted e' = Ok (VBool false) ∧
        sklearn.get_params true e'
          = sklearn.get_params true Examples.smoother_fitted.
Proof.
  destruct (clone_params_unfitted Examples.smoother_fitted
              {[ "r" := VInt 1; "sort" := VBool false ]})
    as (_ & H & _).
  - compute_done.
  - compute_done.
  - vm_compute. reflexivity.
  - destruct H as (e' & H1 & H2 & _ & H4).
    + intros k v Hk. apply clone_estimator_free.
      apply lookup_insert_Some in Hk as [[_ <-]|[_ Hk]]; [done|].
      apply lookup_singleton_Some in Hk as [_ <-]. done.
    + by exists e'.
Defined.

(** C3: the "transformer" hyper-parameter of the fitted pipeline is a
    fitted estimator; that of its clone is not, so [get_params()] of the
    clone differs from [get_params()] of the pipeline. *)
Lemma clone_resets_estimator_parameter :
  ∃ e', clone Examples.pipeline_fitted = Ok e' ∧
        estimator_parameter_flag
          (sklearn.get_params true Examples.pipeline_fitted)
          = Some (VBool true) ∧
        estimator_parameter_flag (sklearn.get_params true e')
          = Some (VBool false) ∧
        sklearn.get_params true e'
          ≠ sklearn.get_params true Examples.pipeline_fitted.
Proof.
  eexists. split; [vm_compute; reflexivity|].
  split; [vm_compute; reflexivity|]. split; [vm_compute; reflexivity|].
  intros H. apply (f_equal estimator_parameter_flag) in H.
  vm_compute in H. discriminate H.
Qed.

(** ** Serialization *)

Lemma serial_round_trip_witness :
  (∃ t serial, save Examples.pipeline_fitted = Ok (t, serial) ∧
               t = Examples.Pipeline ∧
               load_from_serial serial
                 = Ok (to_value Examples.pipeline_fitted)) ∧
  (∃ t serial, save Examples.smoother = Ok (t, serial) ∧
               t = Examples.Smoother ∧
               load_from_serial serial = Ok (to_value Examples.smoother)).
Proof.
  split.
  - destruct (save Examples.pipeline_fitted) as [[t serial]|] eqn:Hs;
      [|by vm_compute in Hs].
    destruct (serial_round_trip _ _ _ Hs) as (-> & e' & Hl & -> & _).
    exists (klass Examples.pipeline_fitted), serial.
    split; [done|]. split; [vm_compute; reflexivity|done].
  - destruct (save Examples.smoother) as [[t serial]|] eqn:Hs;
      [|by vm_compute in Hs].
    destruct (serial_round_trip _ _ _ Hs) as (-> & e' & Hl & -> & _).
    exists (klass Examples.smoother), serial.
    split; [done|]. split; [vm_compute; reflexivity|done].
Defined.

(** ** Fitted parameters *)



(** ** The store-level statement *)


(* ===================================================================== *)
(** * Further properties *)
(* ===================================================================== *)

Lemma is_ok_true {A} (r : result A) : is_ok r = true → ∃ x, r = Ok x.
Proof. destruct r; [eauto|done]. Qed.

(** ** What [__init__] assigns *)

Lemma vars_foldl_setattr_union {A} (f : A → string) (g : A → value) l
    e1 e2 (B : gmap string value) :
  vars e1 = vars e2 ∪ B →
  vars (foldl (λ e p, setattr e (f p) (g p)) e1 l)
  = vars (foldl (λ e p, setattr e (f p) (g p)) e2 l) ∪ B.
Proof.
  revert e1 e2. induction l as [|p l IH]; intros e1 e2 H; simpl; [done|].
  apply IH. simpl. rewrite H. by rewrite insert_union_l.
Qed.

Lemma vars_init_union e params :
  vars (init e params)
  = vars (init (Estimator (klass e) ∅) params) ∪ vars e.
Proof.
  unfold init, BaseEstimator_init, store_extra, store_params.
  cbn [klass]. rewrite !klass_foldl_setattr. cbn [setattr vars klass].
  rewrite <- !insert_union_l. do 2 f_equal.
  apply vars_foldl_setattr_union. apply vars_foldl_setattr_union.
  simpl. by rewrite (left_id_L ∅ (∪)).
Qed.

Lemma dom_foldl_setattr {A} (f : A → string) (g : A → value) l e :
  dom (vars (foldl (λ e p, setattr e (f p) (g p)) e l))
  = list_to_set (f <$> l) ∪ dom (vars e).
Proof.
  revert e. induction l as [|p l IH]; intros e; simpl.
  - set_solver.
  - rewrite IH. simpl. rewrite dom_insert_L. set_solver.
Qed.

Lemma dom_init_fresh c params :
  dom (vars (init (Estimator c ∅) params)) = list_to_set (init_assigned c).
Proof.
  unfold init, BaseEstimator_init, store_extra, store_params.
  cbn [klass]. rewrite !klass_foldl_setattr. cbn [setattr vars klass].
  rewrite !dom_insert_L, !dom_foldl_setattr. simpl. rewrite dom_empty_L.
  unfold init_assigned, sklearn.later_assigned, param_names.
  rewrite list_to_set_app_L. simpl. set_solver.
Qed.

Lemma vars_init_other e params k :
  k ∉ init_assigned (klass e) → vars (init e params) !! k = vars e !! k.
Proof.
  intros Hk. rewrite vars_init_union, lookup_union_r; [done|].
  apply not_elem_of_dom. rewrite dom_init_fresh. set_solver.
Qed.

Lemma vars_init_assigned e params k :
  k ∈ init_assigned (klass e) →
  vars (init e params) !! k
  = vars (init (Estimator (klass e) ∅) params) !! k.
Proof.
  intros Hk. rewrite vars_init_union.
  assert (is_Some (vars (init (Estimator (klass e) ∅) params) !! k))
    as [v Hv].
  { apply elem_of_dom. rewrite dom_init_fresh. set_solver. }
  rewrite Hv. by apply lookup_union_Some_l.
Qed.

Lemma vars_init_tags_dynamic e params :
  vars (init e params) !! "_tags_dynamic" = Some (VDict ∅).
Proof. unfold init, BaseEstimator_init. simpl. apply lookup_insert_eq. Qed.

Lemma get_tags_init e params :
  get_tags (init e params) = Ok (get_class_tags (klass e)).
Proof.
  rewrite (get_tags_dynamic _ ∅ (vars_init_tags_dynamic e params)).
  by rewrite klass_init, (left_id_L ∅ (∪)).
Qed.

(** ** What [reset] deletes *)

Lemma vars_delete_all (X : gset string) e k :
  vars (set_fold (λ attr e, delattr e attr) e X) !! k
  = if decide (k ∈ X) then None else vars e !! k.
Proof.
  unfold set_fold. simpl.
  assert (H : ∀ l : list string,
    vars (foldr (λ attr e, delattr e attr) e l) !! k
    = if decide (k ∈ l) then None else vars e !! k).
  { induction l as [|x l IH]; cbn [foldr delattr vars].
    - case_decide; [set_solver|done].
    - destruct (decide (k = x)) as [->|Hne].
      + rewrite lookup_delete_eq.
        destruct (decide (x ∈ x :: l)); [done|set_solver].
      + rewrite lookup_delete_ne by done. rewrite IH.
        destruct (decide (k ∈ l)), (decide (k ∈ x :: l));
          try done; set_solver. }
  rewrite H.
  destruct (decide (k ∈ elements X)), (decide (k ∈ X)); try done; set_solver.
Qed.

Lemma discard_all_spec keep (X Y : gset string) :
  discard_all keep X = Ok Y → Y = X ∖ kept_in keep.
Proof.
  revert X. induction keep as [|attr keep IH]; intros X; simpl.
  - intros [= <-]. unfold kept_in. simpl. set_solver.
  - destruct (hashable attr); [|done]. intros ->%IH.
    unfold kept_in. destruct attr; simpl; set_solver.
Qed.

Lemma discard_all_accepted keep (X Y : gset string) :
  discard_all keep X = Ok Y → forallb hashable keep = true.
Proof.
  revert X. induction keep as [|attr keep IH]; intros X; simpl; [done|].
  destruct (hashable attr); [|done]. intros H. by rewrite (IH _ H).
Qed.

(** [reset] returns exactly when [get_params(deep=False)] does and [keep]
    is accepted, and then it is [__init__] run on what the deletions
    leave. *)
Lemma reset_spec e keep e' :
  reset e keep = Ok e' ↔
  ∃ params,
    sklearn.get_params false e = Ok params ∧
    keep_accepted keep = true ∧
    e' = init (set_fold (λ attr e, delattr e attr) e (reset_deletes e keep))
              params.
Proof.
  unfold reset, reset_deletes.
  destruct (sklearn.get_params false e) as [params|]; cbn [bind].
  2:{ split; [done|]. by intros (? & ? & _). }
  split.
  - intros H. exists params. split; [done|].
    destruct keep as [| | |s|items| | |]; simpl in H; try done.
    + injection H as <-. simpl. by rewrite difference_empty_L.
    + by injection H as <-.
    + destruct (discard_all items _) as [Y|] eqn:HY; [|done].
      simpl. rewrite (discard_all_accepted _ _ _ HY).
      apply discard_all_spec in HY as ->. by injection H as <-.
  - intros (? & [= <-] & Hk & ->).
    destruct keep as [| | |s|items| | |]; simpl in Hk; try done.
    + simpl. by rewrite difference_empty_L.
    + destruct (discard_all_hashable items
        (filter no_dunder (dir_self e) ∖ dir_type (klass e)) Hk) as [Y HY].
      rewrite HY. apply discard_all_spec in HY as ->. done.
Qed.

Lemma reset_deletes_iff e keep k :
  k ∈ reset_deletes e keep ↔
  k ∈ dom (vars e) ∧ ¬ survives_reset (klass e) keep k.
Proof.
  unfold reset_deletes, survives_reset, dir_self, dir_type, no_dunder.
  rewrite !elem_of_difference, elem_of_filter, elem_of_union,
    elem_of_list_to_set.
  destruct (str_contains "__" k); naive_solver.
Qed.

Lemma reset_vars_other e keep e' k :
  reset e keep = Ok e' → k ∉ init_assigned (klass e) →
  vars e' !! k
  = if decide (survives_reset (klass e) keep k) then vars e !! k else None.
Proof.
  intros (params & _ & _ & ->)%reset_spec Hk.
  rewrite vars_init_other by (by rewrite klass_delete_all).
  rewrite vars_delete_all.
  pose proof (reset_deletes_iff e keep k) as HY.
  destruct (decide (k ∈ reset_deletes e keep)) as [HkY|HkY],
    (decide (survives_reset (klass e) keep k)) as [Hs|Hs]; try done.
  - by apply HY in HkY as [_ ?].
  - apply not_elem_of_dom. intros Hd. by apply HkY, HY.
Qed.

Lemma estimator_eq e1 e2 :
  klass e1 = klass e2 → vars e1 = vars e2 → e1 = e2.
Proof. destruct e1, e2. simpl. by intros -> ->. Qed.

Lemma init_eq e1 e2 params :
  klass e1 = klass e2 →
  (∀ k, k ∉ init_assigned (klass e1) → vars e1 !! k = vars e2 !! k) →
  init e1 params = init e2 params.
Proof.
  intros Hk Hv. apply estimator_eq; [by rewrite !klass_init|].
  apply map_eq. intros k.
  destruct (decide (k ∈ init_assigned (klass e1))) as [Hin|Hin].
  - rewrite (vars_init_assigned e1), (vars_init_assigned e2);
      [by rewrite Hk|by rewrite <- Hk|done].
  - rewrite (vars_init_other e1), (vars_init_other e2);
      [by apply Hv|by rewrite <- Hk|done].
Qed.

(** ** [reset]: what survives and what does not *)

(** X1: an instance attribute named in [keep], one with a double
    underscore in its name, or one that shadows a name of the class, is
    after [reset(keep)] what it was before, unless [__init__] assigns
    it. *)
Theorem reset_keeps_attribute e keep e' k :
  reset e keep = Ok e' →
  survives_reset (klass e) keep k → k ∉ init_assigned (klass e) →
  vars e' !! k = vars e !! k.
Proof.
  intros Hr Hs Hk. rewrite (reset_vars_other _ _ _ _ Hr Hk).
  by rewrite decide_True.
Qed.

Lemma reset_keeps_attribute_witness :
  ∃ e', reset Examples.pipeline_fitted (VStr "n_timepoints_") = Ok e' ∧
        vars e' !! "n_timepoints_"
        = vars Examples.pipeline_fitted !! "n_timepoints_".
Proof.
  destruct (is_ok_true
              (reset Examples.pipeline_fitted (VStr "n_timepoints_")))
    as [e' He]; [vm_compute; reflexivity|].
  exists e'. split; [exact He|].
  apply (reset_keeps_attribute _ _ _ _ He).
  - compute_done.
  - compute_done.
Defined.

(** X2: every other instance attribute that [__init__] does not assign
    is gone after [reset(keep)]: reading it raises [AttributeError]. *)
Theorem reset_erases_attribute e keep e' k :
  reset e keep = Ok e' →
  ¬ survives_reset (klass e) keep k → k ∉ init_assigned (klass e) →
  vars e' !! k = None ∧ getattr e' k = Raise (AttributeError k).
Proof.
  intros Hr Hs Hk.
  assert (Hv : vars e' !! k = None).
  { rewrite (reset_vars_other _ _ _ _ Hr Hk). by rewrite decide_False. }
  split; [done|]. unfold getattr. rewrite Hv.
  apply reset_spec in Hr as (params & _ & _ & ->).
  rewrite klass_init, klass_delete_all.
  rewrite bool_decide_eq_false_2; [done|].
  intros ?. apply Hs. right. by right.
Qed.

Lemma reset_erases_attribute_witness :
  ∃ e', reset Examples.pipeline_fitted (VStr "n_timepoints_") = Ok e' ∧
        getattr e' "transformer_" = Raise (AttributeError "transformer_").
Proof.
  destruct (is_ok_true
              (reset Examples.pipeline_fitted (VStr "n_timepoints_")))
    as [e' He]; [vm_compute; reflexivity|].
  exists e'. split; [exact He|].
  apply (reset_erases_attribute _ _ _ _ He).
  - compute_done.
  - compute_done.
Defined.

(** X3: [reset] drops the dynamic tags, whatever [keep] names:
    [__init__] assigns an empty [_tags_dynamic] last, so that afterwards
    [get_tags()] is [get_class_tags()] and [get_tag] is
    [get_class_tag]. *)
Theorem reset_drops_dynamic_tags e keep e' :
  reset e keep = Ok e' →
  get_tags e' = Ok (get_class_tags (klass e)) ∧
  ∀ tag_name tag_value_default raise_error,
    get_tag e' tag_name tag_value_default raise_error
    = get_class_tag (klass e) tag_name tag_value_default raise_error.
Proof.
  intros (params & _ & _ & ->)%reset_spec.
  assert (H : get_tags (init (set_fold (λ attr e, delattr e attr) e
                                (reset_deletes e keep)) params)
              = Ok (get_class_tags (klass e))).
  { by rewrite get_tags_init, klass_delete_all. }
  split; [done|]. intros. unfold get_tag, get_class_tag. by rewrite H.
Qed.

Lemma reset_drops_dynamic_tags_witness :
  get_tag MoreExamples.smoother_tagged "fit_is_empty" VNone true
    = Ok (VBool false) ∧
  ∃ e', reset MoreExamples.smoother_tagged (VStr "_tags_dynamic") = Ok e' ∧
        get_tag e' "fit_is_empty" VNone true = Ok (VBool true).
Proof.
  split; [vm_compute; reflexivity|].
  destruct (is_ok_true
              (reset MoreExamples.smoother_tagged (VStr "_tags_dynamic")))
    as [e' He]; [vm_compute; reflexivity|].
  exists e'. split; [exact He|].
  destruct (reset_drops_dynamic_tags _ _ _ He) as [_ ->].
  vm_compute. reflexivity.
Defined.

(** X4: [reset] is idempotent: a second [reset(keep)] changes nothing. *)
Theorem reset_idempotent e keep e' :
  conforming (klass e) → reset e keep = Ok e' → reset e' keep = Ok e'.
Proof.
  intros Hc Hr. pose proof Hr as (params & Hp & Hk & He)%reset_spec.
  assert (Hp' : sklearn.get_params false e' = Ok params).
  { rewrite He. by apply reset_after_keep. }
  assert (Hkl : klass e' = klass e).
  { by rewrite He, klass_init, klass_delete_all. }
  apply reset_spec. exists params. split; [done|]. split; [done|].
  rewrite He at 1. apply init_eq.
  { by rewrite !klass_delete_all. }
  rewrite klass_delete_all. intros k Hin.
  assert (Hv : vars e' !! k
               = vars (set_fold (λ attr e, delattr e attr) e
                         (reset_deletes e keep)) !! k).
  { rewrite He at 1. apply vars_init_other. by rewrite klass_delete_all. }
  rewrite <- Hv, (vars_delete_all (reset_deletes e' keep) e' k).
  destruct (decide (k ∈ reset_deletes e' keep)) as [Hd|Hd]; [|done].
  apply reset_deletes_iff in Hd as [_ Hns]. rewrite Hkl in Hns.
  rewrite (reset_vars_other _ _ _ _ Hr Hin). by rewrite decide_False.
Qed.

Lemma reset_idempotent_witness :
  ∃ e', reset Examples.pipeline_fitted VNone = Ok e' ∧
        reset e' VNone = Ok e'.
Proof.
  destruct (is_ok_true (reset Examples.pipeline_fitted VNone))
    as [e' He]; [vm_compute; reflexivity|].
  exists e'. split; [exact He|].
  apply (reset_idempotent Examples.pipeline_fitted VNone e');
    [compute_done|exact He].
Defined.

(** ** [clone] and the constructor *)




Lemma get_params_dom_subseteq e params :
  sklearn.get_params false e = Ok params →
  dom params ⊆ list_to_set (param_names (klass e)).
Proof.
  intros [_ H]%get_params_shallow_dom k [v Hk]%elem_of_dom.
  apply elem_of_list_to_set.
  destruct (decide (k ∈ param_names (klass e))) as [|Hn]; [done|].
  rewrite (H _ Hn) in Hk. done.
Qed.

Lemma reset_result_fresh e keep params e' :
  sklearn.get_params false e = Ok params → reset e keep = Ok e' →
  (∀ k, k ∈ dom (vars e) → k ∉ init_assigned (klass e) →
        ¬ survives_reset (klass e) keep k) →
  e' = init (Estimator (klass e) ∅) params.
Proof.
  intros Hp (params' & Hp' & _ & ->)%reset_spec Hall.
  assert (params' = params) as -> by congruence.
  apply init_eq.
  { by rewrite klass_delete_all. }
  rewrite klass_delete_all. intros k Hk.
  rewrite vars_delete_all. cbn [vars]. rewrite lookup_empty.
  destruct (decide (k ∈ reset_deletes e keep)) as [Hd|Hd]; [done|].
  apply not_elem_of_dom. intros Hdom. apply Hd.
  apply reset_deletes_iff. split; [done|]. by apply Hall.
Qed.

(** X6: the docstring of [reset]: after [reset(keep)] the estimator is
    equal in value to [type(self)] called on the keyword arguments
    [self.get_params(deep=False)], provided every attribute the
    constructor does not assign is one [reset] deletes. *)
Theorem reset_is_fresh_construct e keep params e' :
  sklearn.get_params false e = Ok params → reset e keep = Ok e' →
  (∀ k, k ∈ dom (vars e) → k ∉ init_assigned (klass e) →
        ¬ survives_reset (klass e) keep k) →
  construct (klass e) params = Ok e'.
Proof.
  intros Hp Hr Hall. unfold construct.
  rewrite bool_decide_eq_true_2 by (by apply get_params_dom_subseteq).
  f_equal. symmetry. by eapply reset_result_fresh.
Qed.

Lemma reset_is_fresh_construct_witness :
  ∃ params e',
    sklearn.get_params false Examples.pipeline_fitted = Ok params ∧
    reset Examples.pipeline_fitted VNone = Ok e' ∧
    construct Examples.Pipeline params = Ok e'.
Proof.
  destruct (is_ok_true (sklearn.get_params false Examples.pipeline_fitted))
    as [params Hp]; [vm_compute; reflexivity|].
  destruct (is_ok_true (reset Examples.pipeline_fitted VNone))
    as [e' He]; [vm_compute; reflexivity|].
  exists params, e'. split; [exact Hp|]. split; [exact He|].
  apply (reset_is_fresh_construct Examples.pipeline_fitted VNone params e'
           Hp He).
  intros k Hk Hn. revert k Hk Hn.
  apply (bool_decide_unpack
    (set_Forall (λ k, k ∉ init_assigned Examples.Pipeline →
                      ¬ survives_reset Examples.Pipeline VNone k)
       (dom (vars Examples.pipeline_fitted)))).
  vm_compute. reflexivity.
Defined.

Lemma reset_none_returns e params :
  sklearn.get_params false e = Ok params → ∃ e', reset e VNone = Ok e'.
Proof.
  intros Hp. eexists. apply reset_spec. by exists params.
Qed.

(** X7: the docstring of [reset]: for an estimator whose class follows
    the constructor convention, it is equivalent to [clone], in place,
    when every hyper-parameter is its own clone (as every value without
    an estimator in it is) and every attribute the constructor does
    not assign is one [reset] deletes. *)
Theorem reset_agrees_with_clone e params :
  conforming (klass e) → kind (klass e) ≠ PlainObject →
  sklearn.get_params false e = Ok params →
  map_Forall (λ _ v, sklearn.clone false v = Ok v) params →
  (∀ k, k ∈ dom (vars e) → k ∉ init_assigned (klass e) →
        ¬ survives_reset (klass e) VNone k) →
  ∃ e', reset e VNone = Ok e' ∧ clone e = Ok e'.
Proof.
  intros Hc Hk Hp Hst Hall.
  destruct (reset_none_returns e params Hp) as [e' He].
  exists e'. split; [done|].
  rewrite (clone_stable_params _ _ Hc Hk Hp Hst).
  by rewrite (reset_result_fresh _ _ _ _ Hp He Hall).
Qed.

Lemma reset_agrees_with_clone_witness :
  ∃ e', reset Examples.smoother_fitted VNone = Ok e' ∧
        clone Examples.smoother_fitted = Ok e'.
Proof.
  assert (Hfree :
    match sklearn.get_params false Examples.smoother_fitted with
    | Ok params =>
        bool_decide (map_Forall (λ _ v, estimator_free v = true) params)
    | Raise _ => false
    end = true) by (vm_compute; reflexivity).
  destruct (sklearn.get_params false Examples.smoother_fitted)
    as [params|] eqn:Hp; [|discriminate Hfree].
  apply bool_decide_eq_true_1 in Hfree.
  apply (reset_agrees_with_clone Examples.smoother_fitted params).
  - compute_done.
  - compute_done.
  - exact Hp.
  - intros k v Hk. apply clone_estimator_free. exact (Hfree k v Hk).
  - intros k Hk Hn. revert k Hk Hn.
    apply (bool_decide_unpack
      (set_Forall (λ k, k ∉ init_assigned Examples.Smoother →
                        ¬ survives_reset Examples.Smoother VNone k)
         (dom (vars Examples.smoother_fitted)))).
    vm_compute. reflexivity.
Defined.

(** ** The constructor and [get_params] *)

Lemma vars_store_params_default c params e k d :
  NoDup (param_names c) → (k, d) ∈ init_params c →
  vars (store_params c params e) !! k = Some (default d (params !! k)).
Proof.
  unfold store_params, param_names. revert e.
  induction (init_params c) as [|[n d'] l IH]; intros e; simpl.
  - by intros _ ?%elem_of_nil.
  - intros [Hn Hnd]%NoDup_cons [[= -> ->]|Hin]%elem_of_cons.
    + rewrite (vars_foldl_setattr_notin fst
                 (λ p, default p.2 (params !! p.1))) by done.
      simpl. apply lookup_insert_eq.
    + by apply IH.
Qed.

Lemma vars_init_default e params k d :
  NoDup (param_names (klass e)) →
  k ∉ sklearn.later_assigned (klass e) → (k, d) ∈ init_params (klass e) →
  vars (init e params) !! k = Some (default d (params !! k)).
Proof.
  intros Hnd Hc Hk. unfold sklearn.later_assigned in Hc.
  apply not_elem_of_app in Hc as [Hx Hr].
  apply not_elem_of_cons in Hr as [Hf Hr].
  apply not_elem_of_cons in Hr as [Ht _].
  unfold init, BaseEstimator_init. simpl.
  rewrite lookup_insert_ne by done. rewrite lookup_insert_ne by done.
  rewrite klass_store_params. unfold store_extra.
  rewrite (vars_foldl_setattr_notin fst snd) by done.
  by apply vars_store_params_default.
Qed.

(** X8: hyper-parameters are reproducible by introspection. For a class
    that follows the constructor convention, [get_params(deep=False)] of
    the instance [cls] returns for some keyword arguments gives each
    parameter the argument passed for it, or else its default, and
    [cls] called on that mapping returns the same instance again; a
    keyword that is not a parameter is a [TypeError]. *)
Theorem construct_reproducible c kwargs :
  conforming c → NoDup (param_names c) →
  (dom kwargs ⊆ list_to_set (param_names c) →
   ∃ e params,
     construct c kwargs = Ok e ∧
     sklearn.get_params false e = Ok params ∧
     (∀ k d, (k, d) ∈ init_params c →
             params !! k = Some (default d (kwargs !! k))) ∧
     dom params = list_to_set (param_names c) ∧
     construct c params = Ok e) ∧
  (¬ dom kwargs ⊆ list_to_set (param_names c) →
   ∃ msg, construct c kwargs = Raise (TypeError msg)).
Proof.
  intros Hc Hnd. unfold conforming in Hc. rewrite Forall_forall in Hc.
  split.
  2:{ intros Hn. unfold construct. rewrite bool_decide_eq_false_2 by done.
      eauto. }
  intros Hdom. unfold construct at 1. rewrite bool_decide_eq_true_2 by done.
  remember (init (Estimator c ∅) kwargs) as e eqn:He.
  assert (Hkl : klass e = c) by (by rewrite He, klass_init).
  assert (Hv : ∀ k d, (k, d) ∈ init_params c →
                      vars e !! k = Some (default d (kwargs !! k))).
  { intros k d Hk. rewrite He. apply vars_init_default; cbn [klass];
      [done| |done].
    apply Hc. unfold param_names. apply list_elem_of_fmap.
    by exists (k, d). }
  destruct (gather_from_ok (getattr e) (param_names c)
              (λ k, default VNone (vars e !! k)) ∅) as [params Hg].
  { intros k (p & -> & Hp)%list_elem_of_fmap. destruct p as [k d].
    cbn [fst]. rewrite (getattr_vars e k _ (Hv _ _ Hp)).
    by rewrite (Hv _ _ Hp). }
  assert (Hp : sklearn.get_params false e = Ok params).
  { unfold sklearn.get_params, sklearn.get_params_shallow. by rewrite Hkl. }
  pose proof Hp as [P1 P2]%get_params_shallow_spec.
  rewrite Hkl in P1, P2.
  assert (Hpk : ∀ k d, (k, d) ∈ init_params c →
                       params !! k = Some (default d (kwargs !! k))).
  { intros k d Hk. destruct (P1 k) as (v & Hv1 & Hv2).
    { apply list_elem_of_fmap. by exists (k, d). }
    rewrite (getattr_vars e k _ (Hv _ _ Hk)) in Hv1. congruence. }
  assert (Hdp : dom params = list_to_set (param_names c)).
  { apply set_eq. intros k. rewrite elem_of_dom, elem_of_list_to_set.
    split.
    - intros [v Hk]. destruct (decide (k ∈ param_names c)); [done|].
      rewrite P2 in Hk; done.
    - intros Hk. destruct (P1 _ Hk) as (v & _ & ->). eauto. }
  exists e, params. split; [done|]. split; [done|]. split; [done|].
  split; [done|].
  unfold construct. rewrite bool_decide_eq_true_2 by (by rewrite Hdp).
  f_equal. rewrite He. unfold init. cbn [klass].
  assert (store_params c params (Estimator c ∅)
          = store_params c kwargs (Estimator c ∅)) as ->; [|done].
  unfold store_params. apply foldl_ext_in. intros a [k d] Hk. cbn [fst snd].
  by rewrite (Hpk _ _ Hk).
Qed.

Lemma construct_reproducible_witness :
  ∃ e params,
    construct Examples.Smoother {[ "r" := VInt 5 ]} = Ok e ∧
    sklearn.get_params false e = Ok params ∧
    params !! "r" = Some (VInt 5) ∧
    params !! "sort" = Some (VBool false) ∧
    construct Examples.Smoother params = Ok e.
Proof.
  destruct (construct_reproducible Examples.Smoother {[ "r" := VInt 5 ]})
    as [H _]; [compute_done|compute_done|].
  destruct H as (e & params & H1 & H2 & H3 & _ & H5); [compute_done|].
  exists e, params. split; [exact H1|]. split; [exact H2|].
  split; [|split; [|exact H5]].
  - apply (H3 "r" (VInt 1)). left.
  - apply (H3 "sort" (VBool false)). right. left.
Defined.

(** ** [set_tags] and [get_tags] *)

Lemma hasattr_false_vars e k : hasattr e k = false → vars e !! k = None.
Proof.
  unfold hasattr, getattr. by destruct (vars e !! k).
Qed.

Lemma get_tags_no_dynamic e :
  hasattr e "_tags_dynamic" = false →
  get_tags e = Ok (get_class_tags (klass e)).
Proof.
  intros H. unfold get_tags. rewrite H. simpl. by rewrite deepcopy_fmap_id.
Qed.

(** What [set_tags] does to the instance: [dynamic] is the dictionary
    [_tags_dynamic] held before the call, empty if there was none. *)
Lemma set_tags_iff e tag_dict e' :
  set_tags e tag_dict = Ok e' ↔
  ∃ dynamic,
    (vars e !! "_tags_dynamic" = Some (VDict dynamic) ∨
     hasattr e "_tags_dynamic" = false ∧ dynamic = ∅) ∧
    e' = setattr e "_tags_dynamic" (VDict (tag_dict ∪ dynamic)).
Proof.
  unfold set_tags. rewrite deepcopy_fmap_id.
  destruct (hasattr e "_tags_dynamic") eqn:Hh.
  - unfold hasattr, getattr in *.
    destruct (vars e !! "_tags_dynamic") as [d|] eqn:Hd.
    + cbn [bind]. split.
      * destruct d; try done. intros [= <-]. eexists. split; [by left|done].
      * intros (dyn & [[= ->]|[? _]] & ->); done.
    + case_bool_decide; [|done]. cbn [bind]. split; [done|].
      intros (dyn & [?|[? _]] & _); done.
  - split.
    + intros [= <-]. exists ∅. split; [by right|].
      by rewrite (right_id_L ∅ (∪)).
    + intros (dyn & [Hv|[_ ->]] & ->).
      * by rewrite (hasattr_vars _ _ _ Hv) in Hh.
      * by rewrite (right_id_L ∅ (∪)).
Qed.

Lemma get_tags_before_set_tags e dynamic :
  vars e !! "_tags_dynamic" = Some (VDict dynamic) ∨
  hasattr e "_tags_dynamic" = false ∧ dynamic = ∅ →
  get_tags e = Ok (dynamic ∪ get_class_tags (klass e)).
Proof.
  intros [H|[H ->]].
  - by apply get_tags_dynamic.
  - rewrite (left_id_L ∅ (∪)). by apply get_tags_no_dynamic.
Qed.

Lemma lookup_tag_union_other (tag_dict tags : gmap string value) name d r :
  name ∉ dom tag_dict →
  lookup_tag (tag_dict ∪ tags) name d r = lookup_tag tags name d r.
Proof.
  intros Hn%not_elem_of_dom. unfold lookup_tag.
  rewrite lookup_union_r by done.
  assert (bool_decide (name ∉ dom (tag_dict ∪ tags))
          = bool_decide (name ∉ dom tags)) as ->; [|done].
  apply bool_decide_ext. rewrite !not_elem_of_dom.
  by rewrite lookup_union_r.
Qed.

(** X9: when [set_tags] returns, [get_tags()] is afterwards what it
    was before the call, updated with the tags passed, so that every tag
    not passed reads as it did. *)
Theorem set_tags_updates_tags e tag_dict e' :
  set_tags e tag_dict = Ok e' →
  ∃ tags,
    get_tags e = Ok tags ∧
    get_tags e' = Ok (tag_dict ∪ tags) ∧
    ∀ tag_name tag_value_default raise_error,
      tag_name ∉ dom tag_dict →
      get_tag e' tag_name tag_value_default raise_error
      = get_tag e tag_name tag_value_default raise_error.
Proof.
  intros (dyn & Hd & ->)%set_tags_iff.
  exists (dyn ∪ get_class_tags (klass e)).
  assert (H1 : get_tags e = Ok (dyn ∪ get_class_tags (klass e))).
  { by apply get_tags_before_set_tags. }
  assert (H2 : get_tags (setattr e "_tags_dynamic" (VDict (tag_dict ∪ dyn)))
               = Ok (tag_dict ∪ (dyn ∪ get_class_tags (klass e)))).
  { rewrite (get_tags_dynamic _ (tag_dict ∪ dyn)).
    - simpl. by rewrite (assoc_L (∪)).
    - simpl. apply lookup_insert_eq. }
  split; [done|]. split; [done|]. intros name d r Hn.
  unfold get_tag. rewrite H1, H2. cbn [bind].
  by apply lookup_tag_union_other.
Qed.

Lemma set_tags_updates_tags_witness :
  ∃ e', set_tags MoreExamples.smoother_tagged
          {[ "capability:multivariate" := VBool false ]} = Ok e' ∧
        get_tag e' "fit_is_empty" VNone true
        = get_tag MoreExamples.smoother_tagged "fit_is_empty" VNone true.
Proof.
  destruct (is_ok_true (set_tags MoreExamples.smoother_tagged
                          {[ "capability:multivariate" := VBool false ]}))
    as [e' He]; [vm_compute; reflexivity|].
  exists e'. split; [exact He|].
  destruct (set_tags_updates_tags _ _ _ He) as (tags & _ & _ & H).
  apply H. compute_done.
Defined.

(** X10: two calls of [set_tags] amount to one call with the two
    mappings merged, the later one winning. *)
Theorem set_tags_twice e tag_dict1 tag_dict2 e1 e2 :
  set_tags e tag_dict1 = Ok e1 → set_tags e1 tag_dict2 = Ok e2 →
  set_tags e (tag_dict2 ∪ tag_dict1) = Ok e2.
Proof.
  intros (dyn & Hd & ->)%set_tags_iff (dyn1 & Hd1 & ->)%set_tags_iff.
  apply set_tags_iff. exists dyn. split; [done|].
  destruct Hd1 as [Hd1|[Hd1 _]].
  - simpl in Hd1. rewrite lookup_insert_eq in Hd1. injection Hd1 as <-.
    unfold setattr. simpl. rewrite insert_insert_eq.
    by rewrite (assoc_L (∪)).
  - unfold hasattr, getattr in Hd1. simpl in Hd1.
    by rewrite lookup_insert_eq in Hd1.
Qed.

Lemma set_tags_twice_witness :
  ∃ e1 e2,
    set_tags Examples.smoother {[ "fit_is_empty" := VBool false ]} = Ok e1 ∧
    set_tags e1 {[ "X_inner_type" := VStr "pd.DataFrame" ]} = Ok e2 ∧
    set_tags Examples.smoother
      ({[ "X_inner_type" := VStr "pd.DataFrame" ]}
         ∪ {[ "fit_is_empty" := VBool false ]}) = Ok e2.
Proof.
  assert (Hchk :
    is_ok (let* e1 := set_tags Examples.smoother
                        {[ "fit_is_empty" := VBool false ]} in
           set_tags e1 {[ "X_inner_type" := VStr "pd.DataFrame" ]}) = true)
    by (vm_compute; reflexivity).
  destruct (set_tags Examples.smoother {[ "fit_is_empty" := VBool false ]})
    as [e1|] eqn:H1; [|discriminate Hchk].
  cbn [bind] in Hchk. apply is_ok_true in Hchk as [e2 H2].
  exists e1, e2. split; [reflexivity|]. split; [exact H2|].
  exact (set_tags_twice _ _ _ _ _ H1 H2).
Defined.

(** ** Strings: trailing underscores *)

Lemma endswith_underscore_snoc s : endswith_underscore (s +:+ "_") = true.
Proof.
  induction s as [|a s IH]; [done|].
  change (String a s +:+ "_") with (String a (s +:+ "_")).
  cbn [endswith_underscore]. destruct (s +:+ "_") eqn:Hs; [|done].
  by destruct s.
Qed.

Lemma drop_last_snoc s a : drop_last (s +:+ String a "") = s.
Proof.
  induction s as [|b s IH]; [done|].
  change (String b s +:+ String a "") with (String b (s +:+ String a "")).
  cbn [drop_last]. destruct (s +:+ String a "") eqn:Hs.
  - by destruct s.
  - by rewrite <- IH.
Qed.

Lemma endswith_underscore_split s :
  endswith_underscore s = true → s = drop_last s +:+ "_".
Proof.
  induction s as [|a s IH]; [done|].
  cbn [endswith_underscore drop_last]. destruct s as [|b s].
  - unfold is_underscore. by intros ->%bool_decide_eq_true.
  - intros H. by rewrite (IH H) at 1.
Qed.

Lemma drop_last_inj a b :
  endswith_underscore a = true → endswith_underscore b = true →
  drop_last a = drop_last b → a = b.
Proof.
  intros Ha%endswith_underscore_split Hb%endswith_underscore_split H.
  rewrite Ha, Hb. by rewrite H.
Qed.

Lemma length_snoc s a :
  String.length (s +:+ String a "") = S (String.length s).
Proof.
  induction s as [|b s IH]; [done|].
  change (S (String.length (s +:+ String a "")) = S (S (String.length s))).
  by rewrite IH.
Qed.

Lemma underscores_snoc n : underscores (S n) = underscores n +:+ "_".
Proof.
  induction n as [|n IH]; [done|].
  change (underscores (S (S n))) with (String "_" (underscores (S n))).
  by rewrite IH at 1.
Qed.

Lemma string_app_assoc (a b c : string) : (a +:+ b) +:+ c = a +:+ b +:+ c.
Proof.
  induction a as [|x a IH]; [done|].
  change (String x ((a +:+ b) +:+ c) = String x (a +:+ b +:+ c)).
  by rewrite IH.
Qed.

Lemma string_app_empty_r (a : string) : a +:+ "" = a.
Proof.
  induction a as [|x a IH]; [done|].
  change (String x (a +:+ "") = String x a). by rewrite IH.
Qed.

Lemma underscores_add n m :
  underscores n +:+ underscores m = underscores (n + m).
Proof.
  induction n as [|n IH]; [done|].
  change (String "_" (underscores n +:+ underscores m)
          = String "_" (underscores (n + m))).
  by rewrite IH.
Qed.

Lemma sh_run y n :
  endswith_underscore y = false → sh (y +:+ underscores n) = y.
Proof.
  intros Hy. induction n as [|n IH].
  - simpl. rewrite string_app_empty_r. unfold sh.
    destruct (String.length y) eqn:Hl; simpl; [done|]. by rewrite Hy.
  - rewrite underscores_snoc, <- string_app_assoc. unfold sh.
    rewrite length_snoc. cbn [sh_rec].
    by rewrite endswith_underscore_snoc, drop_last_snoc.
Qed.

Lemma trailing_underscores x :
  ∃ y n, x = y +:+ underscores n ∧ endswith_underscore y = false.
Proof.
  remember (String.length x) as l eqn:Hl. revert x Hl.
  induction l as [|l IH]; intros x Hl.
  - destruct x; [|done]. by exists "", 0.
  - destruct (endswith_underscore x) eqn:He.
    + pose proof (endswith_underscore_split _ He) as Hx.
      destruct (IH (drop_last x)) as (y & n & Hy & Hn).
      { rewrite Hx, length_snoc in Hl. by injection Hl. }
      exists y, (S n). split; [|done].
      rewrite underscores_snoc, <- string_app_assoc, <- Hy. done.
    + exists x, 0. simpl. by rewrite string_app_empty_r.
Qed.

(** X11: the helper [sh] of [get_fitted_params] removes the whole run of
    trailing underscores and nothing else; component names that differ
    only in trailing underscores get the same prefix, hence the same
    nested keys. *)
Theorem sh_strips_trailing_underscores x :
  endswith_underscore (sh x) = false ∧
  (∃ n, x = sh x +:+ underscores n) ∧
  (∀ n k, sh (x +:+ underscores n) = sh x ∧
          nested_key (x +:+ underscores n) k = nested_key x k).
Proof.
  destruct (trailing_underscores x) as (y & n & -> & Hy).
  rewrite (sh_run y n Hy). split; [done|]. split; [by exists n|].
  intros m k. unfold nested_key.
  rewrite string_app_assoc, underscores_add. by rewrite !sh_run.
Qed.

(** ** Fitted parameters *)

(** X12: [get_fitted_params] requires the fitted state. With a fitted
    flag that is false it raises [NotFittedError], whatever [deep] is,
    with a message that contains the name of the class; so it does on
    every instance as the constructor leaves it; and the failure to read
    the flag propagates. *)
Theorem get_fitted_params_requires_fit e deep :
  (∀ flag, is_fitted e = Ok flag → truthy flag = false →
     get_fitted_params e deep
     = Raise (NotFittedError (get_fitted_msg (cname (klass e))))) ∧
  (∀ params,
     get_fitted_params (init e params) deep
     = Raise (NotFittedError (get_fitted_msg (cname (klass e))))) ∧
  (∀ ex, is_fitted e = Raise ex → get_fitted_params e deep = Raise ex) ∧
  str_contains (cname (klass e)) (get_fitted_msg (cname (klass e))) = true ∧
  exn_isinstance (NotFittedError (get_fitted_msg (cname (klass e))))
    CNotFittedError = true.
Proof.
  assert (H : ∀ e' flag, is_fitted e' = Ok flag → truthy flag = false →
    get_fitted_params e' deep
    = Raise (NotFittedError (get_fitted_msg (cname (klass e'))))).
  { intros e' flag Hf Ht. unfold get_fitted_params, to_value.
    rewrite get_fitted_params_unfold. cbv zeta.
    rewrite estimator_eta, Hf. cbn [bind]. by rewrite Ht. }
  split; [apply H|]. split.
  { intros params. rewrite (H _ (VBool false) (is_fitted_init e params));
      [|done]. by rewrite klass_init. }
  split.
  { intros ex Hf. unfold get_fitted_params, to_value.
    rewrite get_fitted_params_unfold. cbv zeta.
    by rewrite estimator_eta, Hf. }
  split; [|done].
  unfold get_fitted_msg. apply str_contains_append.
Qed.

Lemma fitted_fold_lookup (o : estimator) (l : list string) k v :
  Forall (λ p, endswith_underscore p = true) l →
  foldr (λ p (fitted_param_dict : gmap string value),
           match getattr o p with
           | Ok v => <[drop_last p := v]> fitted_param_dict
           | Raise _ => fitted_param_dict
           end) ∅ l !! k = Some v ↔
  ∃ p, p ∈ l ∧ drop_last p = k ∧ getattr o p = Ok v.
Proof.
  induction l as [|p l IH]; intros Hl.
  - simpl. rewrite lookup_empty. split; [done|].
    by intros (? & ?%elem_of_nil & _).
  - apply Forall_cons in Hl as [Hp Hl]. specialize (IH Hl). cbn [foldr].
    destruct (getattr o p) as [w|ex] eqn:Hg.
    + destruct (decide (drop_last p = k)) as [<-|Hne].
      * rewrite lookup_insert_eq. split.
        -- intros [= <-]. exists p. split; [by left|done].
        -- intros (q & Hq & Hd & Hv). f_equal.
           apply elem_of_cons in Hq as [->|Hq]; [congruence|].
           rewrite Forall_forall in Hl.
           assert (q = p) as -> by (apply drop_last_inj; auto).
           congruence.
      * rewrite lookup_insert_ne by done. rewrite IH. split.
        -- intros (q & ? & ? & ?). exists q. split; [by right|done].
        -- intros (q & [->|?]%elem_of_cons & ? & ?); [done|]. by exists q.
    + rewrite IH. split.
      * intros (q & ? & ? & ?). exists q. split; [by right|done].
      * intros (q & [->|?]%elem_of_cons & ? & ?); [congruence|]. by exists q.
Qed.

Lemma getattr_dir_self e k : k ∈ dir_self e → ∃ v, getattr e k = Ok v.
Proof.
  unfold dir_self, dir_type, getattr.
  intros [[v Hv]%elem_of_dom|Hc%elem_of_list_to_set]%elem_of_union.
  - rewrite Hv. eauto.
  - destruct (vars e !! k); [eauto|].
    rewrite bool_decide_eq_true_2 by done. eauto.
Qed.

Lemma own_fitted_params_lookup e k v :
  _get_fitted_params e !! k = Some v ↔
  ∃ attr, attr ∈ dir_self e ∧ is_fitted_attr attr ∧
          drop_last attr = k ∧ getattr e attr = Ok v.
Proof.
  unfold _get_fitted_params, _get_fitted_params_default.
  cbn [truthy]. unfold to_value, as_estimator. rewrite estimator_eta.
  unfold set_fold. cbn [compose]. rewrite fitted_fold_lookup.
  - split.
    + intros (p & [Hf Hp]%elem_of_elements%elem_of_filter & ? & ?).
      by exists p.
    + intros (p & ? & ? & ? & ?). exists p. split; [|done].
      apply elem_of_elements, elem_of_filter. done.
  - apply Forall_forall.
    intros p [[Hf _] _]%elem_of_elements%elem_of_filter. done.
Qed.

(** X13: the fitted parameters of the object itself. On a fitted
    estimator [get_fitted_params(deep=False)] returns, for every name of
    [dir(self)] that ends with an underscore and does not start with
    one, the value of the attribute under the name without its last
    character, and nothing else: no key is empty or starts with an
    underscore, so that no private attribute is listed. *)
Theorem own_fitted_params e flag :
  is_fitted e = Ok flag → truthy flag = true →
  ∃ own,
    get_fitted_params e false = Ok own ∧
    (∀ k v, own !! k = Some v ↔
            ∃ attr, attr ∈ dir_self e ∧ is_fitted_attr attr ∧
                    drop_last attr = k ∧ getattr e attr = Ok v) ∧
    (∀ attr, attr ∈ dir_self e → is_fitted_attr attr →
             is_Some (own !! drop_last attr)) ∧
    (∀ k, is_Some (own !! k) → k ≠ "" ∧ startswith "_" k = false).
Proof.
  intros Hf Ht. exists (_get_fitted_params e). split.
  { unfold get_fitted_params, to_value. rewrite get_fitted_params_unfold.
    cbv zeta. rewrite estimator_eta, Hf. cbn [bind]. by rewrite Ht. }
  split; [apply own_fitted_params_lookup|]. split.
  - intros attr Hd Ha. destruct (getattr_dir_self _ _ Hd) as [v Hv].
    exists v. apply own_fitted_params_lookup. by exists attr.
  - intros k [v (attr & _ & [He Hs] & <- & _)%own_fitted_params_lookup].
    destruct attr as [|a [|b attr]]; [done| |].
    + cbn [endswith_underscore] in He. unfold is_underscore in He.
      apply bool_decide_eq_true in He as ->. by vm_compute in Hs.
    + split; [done|]. cbn [drop_last]. cbn [startswith] in *.
      by destruct (bool_decide _).
Qed.

Lemma own_fitted_params_witness :
  ∃ own,
    get_fitted_params Examples.pipeline_fitted false = Ok own ∧
    own !! "n_timepoints" = Some (VInt 100) ∧
    own !! "_is_fitted" = None.
Proof.
  destruct (own_fitted_params Examples.pipeline_fitted (VBool true))
    as (own & H1 & H2 & _ & H4); [vm_compute; reflexivity|reflexivity|].
  exists own. split; [exact H1|]. split.
  - apply H2. exists "n_timepoints_". split; [compute_done|].
    split; [compute_done|]. split; [reflexivity|].
    vm_compute. reflexivity.
  - destruct (own !! "_is_fitted") as [v|] eqn:Hv; [|reflexivity].
    destruct (H4 "_is_fitted") as [_ H]; [by eexists|]. discriminate H.
Defined.

(** ** [_has_implementation_of] *)



(** ** Test instances *)

Lemma build_instances_inv c param_list objs0 objs :
  build_instances c param_list objs0 = Ok objs →
  ∃ os, list_sequence (construct_from c <$> param_list) = Ok os ∧
        objs = (objs0 ++ os)%list ∧ length os = length param_list ∧
        Forall (λ o, klass o = c ∧ is_fitted o = Ok (VBool false)) os.
Proof.
  revert objs0. induction param_list as [|p l IH]; intros objs0; simpl.
  - intros [= <-]. exists []. by rewrite app_nil_r.
  - destruct p; try done. simpl.
    destruct (construct c d) as [o|] eqn:Ho; [|done]. cbn [bind].
    intros (os & Hs & -> & Hlen & Hall)%IH. exists (o :: os).
    split.
    { unfold fmap in Hs. by rewrite Hs. }
    split; [by rewrite <- app_assoc|].
    split; [by rewrite <- Hlen|]. apply Forall_cons. split; [|done].
    unfold construct in Ho. case_bool_decide; [|done].
    injection Ho as <-. split; [by rewrite klass_init|].
    apply is_fitted_init.
Qed.

Lemma test_names_nodup (type_name : string) n :
  NoDup ((λ i : nat, type_name +:+ "-" +:+ pretty i) <$> seq 0 n).
Proof.
  apply NoDup_fmap_2; [|apply NoDup_seq].
  intros i j H. apply (inj (String.app type_name)) in H.
  apply (inj (String.app "-")) in H. by apply (inj pretty) in H.
Qed.

Lemma create_test_instances_inv c m parameter_set objs names :
  create_test_instances_and_names c m parameter_set = Ok (objs, names) →
  ∃ param_list,
    (call_get_test_params m parameter_set = VList param_list ∨
     isinstance_dict (call_get_test_params m parameter_set) = true ∧
     param_list = [call_get_test_params m parameter_set]) ∧
    list_sequence (construct_from c <$> param_list) = Ok objs ∧
    length objs = length param_list ∧
    Forall (λ o, klass o = c ∧ is_fitted o = Ok (VBool false)) objs ∧
    names = if bool_decide (1 < length param_list)
            then (λ i : nat, cname c +:+ "-" +:+ pretty i)
                   <$> seq 0 (length param_list)
            else [cname c].
Proof.
  unfold create_test_instances_and_names. cbv zeta.
  destruct (call_get_test_params m parameter_set) as [| | | |l|d| |] eqn:Hv;
    try done; cbn [bind].
  - destruct (build_instances c l []) as [objs'|] eqn:Hb; [|done].
    cbn [bind]. intros [= <- <-].
    apply build_instances_inv in Hb as (os & Hs & -> & Hl & Hall).
    exists l. simpl. split; [by left|done].
  - destruct (build_instances c [VDict d] []) as [objs'|] eqn:Hb; [|done].
    cbn [bind]. intros [= <- <-].
    apply build_instances_inv in Hb as (os & Hs & -> & Hl & Hall).
    exists [VDict d]. simpl. split; [by right|done].
Qed.

(** X15: what [create_test_instances_and_names] returns. The instances
    are of the class and unfitted, one per parameter set; the names are
    pairwise distinct and begin with the name of the class; and there are
    as many names as instances, except that an empty list of parameter
    sets yields no instance and one name. *)
Theorem test_instances_and_names c m parameter_set objs names :
  create_test_instances_and_names c m parameter_set = Ok (objs, names) →
  Forall (λ o, klass o = c ∧ is_fitted o = Ok (VBool false)) objs ∧
  NoDup names ∧
  Forall (λ name, startswith (cname c) name = true) names ∧
  (length names = length objs ∨ objs = [] ∧ names = [cname c]).
Proof.
  intros (l & _ & _ & Hlen & Hall & ->)%create_test_instances_inv.
  split; [done|]. rewrite <- Hlen. case_bool_decide as Hn.
  - split; [apply test_names_nodup|]. split.
    + apply Forall_fmap, Forall_forall. intros i _. simpl.
      apply startswith_append.
    + left. by rewrite length_fmap, length_seq.
  - split; [apply NoDup_singleton|]. split.
    + apply Forall_singleton.
      rewrite <- (string_app_empty_r (cname c)) at 2.
      apply startswith_append.
    + destruct objs as [|o [|o' objs]]; simpl in *; [by right|by left|lia].
Qed.

Lemma test_instances_and_names_witness :
  (∃ objs names,
     create_test_instances_and_names Examples.Smoother
       MoreExamples.two_sets "default" = Ok (objs, names) ∧
     NoDup names ∧ length names = 2 ∧ length objs = 2) ∧
  (∃ names,
     create_test_instances_and_names Examples.Smoother
       MoreExamples.no_set "default" = Ok ([], names) ∧
     length names = 1).
Proof.
  split.
  - assert (Hchk :
      match create_test_instances_and_names Examples.Smoother
              MoreExamples.two_sets "default" with
      | Ok (objs, names) =>
          bool_decide (length names = 2 ∧ length objs = 2)
      | Raise _ => false
      end = true) by (vm_compute; reflexivity).
    destruct (create_test_instances_and_names Examples.Smoother
                MoreExamples.two_sets "default")
      as [[objs names]|] eqn:H; [|discriminate Hchk].
    apply bool_decide_eq_true_1 in Hchk as [H1 H2].
    destruct (test_instances_and_names _ _ _ _ _ H) as (_ & Hnd & _).
    exists objs, names. split; [reflexivity|]. split; [exact Hnd|].
    split; [exact H1|exact H2].
  - assert (Hchk :
      match create_test_instances_and_names Examples.Smoother
              MoreExamples.no_set "default" with
      | Ok ([], names) => bool_decide (length names = 1)
      | _ => false
      end = true) by (vm_compute; reflexivity).
    destruct (create_test_instances_and_names Examples.Smoother
                MoreExamples.no_set "default")
      as [[[|o objs] names]|] eqn:H; try discriminate Hchk.
    apply bool_decide_eq_true_1 in Hchk.
    destruct (test_instances_and_names _ _ _ _ _ H) as (_ & _ & _ & _).
    exists names. split; [reflexivity|exact Hchk].
Defined.

Lemma build_instances_accepted c param_list objs0 :
  Forall (accepted_kwargs c) param_list →
  ∃ objs, build_instances c param_list objs0 = Ok objs.
Proof.
  revert objs0. induction param_list as [|p l IH]; intros objs0 Hall.
  - by eexists.
  - apply Forall_cons in Hall as [Hp Hl]. destruct p; try done. simpl in *.
    unfold construct. rewrite bool_decide_eq_true_2 by done. cbn [bind].
    by apply IH.
Qed.

Lemma build_instances_not_dict c l1 x l2 objs0 :
  Forall (accepted_kwargs c) l1 → isinstance_dict x = false →
  build_instances c (l1 ++ x :: l2)%list objs0
  = Raise (RuntimeError (test_params_msg (cname c))).
Proof.
  revert objs0. induction l1 as [|p l IH]; intros objs0 Hall Hx.
  - by destruct x.
  - apply Forall_cons in Hall as [Hp Hl]. destruct p; try done. simpl in *.
    unfold construct. rewrite bool_decide_eq_true_2 by done. cbn [bind].
    by apply IH.
Qed.

Lemma build_instances_error c param_list objs0 ex :
  build_instances c param_list objs0 = Raise ex →
  ex = RuntimeError (test_params_msg (cname c)) ∨ ∃ msg, ex = TypeError msg.
Proof.
  revert objs0. induction param_list as [|p l IH]; intros objs0; [done|].
  simpl. destruct p; try (intros [= <-]; by left).
  unfold construct. case_bool_decide; cbn [bind]; [apply IH|].
  intros [= <-]. right. eauto.
Qed.

(** X16: when [create_test_instances_and_names] fails. It raises the
    [RuntimeError] that names the class when [get_test_params] returns
    neither a dictionary nor a list, and when an item of the list is not
    a dictionary while the constructor accepts the items before it; it
    returns when every parameter set is a dictionary the constructor
    accepts; and it raises nothing but this [RuntimeError] and the
    [TypeError] of the constructor. *)
Theorem test_instances_errors c m parameter_set :
  (isinstance_dict (call_get_test_params m parameter_set) = false →
   isinstance_list (call_get_test_params m parameter_set) = false →
   create_test_instances_and_names c m parameter_set
   = Raise (RuntimeError (test_params_msg (cname c)))) ∧
  (∀ l1 x l2,
     call_get_test_params m parameter_set = VList (l1 ++ x :: l2)%list →
     Forall (accepted_kwargs c) l1 → isinstance_dict x = false →
     create_test_instances_and_names c m parameter_set
     = Raise (RuntimeError (test_params_msg (cname c)))) ∧
  (∀ l,
     call_get_test_params m parameter_set = VList l ∨
     l = [call_get_test_params m parameter_set] →
     Forall (accepted_kwargs c) l →
     is_ok (create_test_instances_and_names c m parameter_set) = true) ∧
  (∀ ex,
     create_test_instances_and_names c m parameter_set = Raise ex →
     ex = RuntimeError (test_params_msg (cname c)) ∨
     ∃ msg, ex = TypeError msg) ∧
  str_contains (cname c) (test_params_msg (cname c)) = true.
Proof.
  unfold create_test_instances_and_names. cbv zeta.
  split; [|split; [|split; [|split]]].
  - by destruct (call_get_test_params m parameter_set).
  - intros l1 x l2 -> Hall Hx. cbn [bind].
    by rewrite build_instances_not_dict.
  - intros l [-> | ->] Hall; cbn [bind].
    + destruct (build_instances_accepted c l [] Hall) as [objs ->]. done.
    + rewrite Forall_singleton in Hall.
      destruct (call_get_test_params m parameter_set)
        as [| | | | |d| |] eqn:Hv; simpl in Hall; try done.
      cbn [bind].
      destruct (build_instances_accepted c [VDict d] []) as [objs ->];
        [by apply Forall_singleton|done].
  - intros ex.
    destruct (call_get_test_params m parameter_set) as [| | | |l|d| |];
      cbn [bind]; try (intros [= <-]; by left).
    + destruct (build_instances c l []) as [objs|ex'] eqn:Hb; [done|].
      cbn [bind]. intros [= <-]. by eapply build_instances_error.
    + destruct (build_instances c [VDict d] []) as [objs|ex'] eqn:Hb;
        [done|].
      cbn [bind]. intros [= <-]. by eapply build_instances_error.
  - unfold test_params_msg. apply str_contains_append.
Qed.

(** X17: [create_test_instance] agrees with
    [create_test_instances_and_names]: when the latter returns, the
    former returns the same instances with [return_first=False], and the
    first of them with [return_first=True], which raises [IndexError]
    when there is none. *)
Theorem create_test_instance_agrees c m parameter_set objs names :
  create_test_instances_and_names c m parameter_set = Ok (objs, names) →
  create_test_instance c m parameter_set false
  = Returned (Instances objs) ∧
  create_test_instance c m parameter_set true
  = match objs with
    | o :: _ => Returned (Instance o)
    | [] => RaisedIndexError "list index out of range"
    end.
Proof.
  intros (l & Hv & Hs & _)%create_test_instances_inv.
  unfold create_test_instance. cbv zeta.
  destruct Hv as [->|[Hd ->]].
  - rewrite Hs. split; [done|]. destruct l as [|p l]; simpl in Hs.
    + by injection Hs as <-.
    + destruct (construct_from c p) as [o|]; [|done]. cbn [bind] in *.
      destruct (list_sequence _) as [os|]; [|done]. by injection Hs as <-.
  - destruct (call_get_test_params m parameter_set) as [| | | | |d| |];
      try done.
    simpl in Hs. cbn [construct_from].
    destruct (construct c d) as [o|]; [|done].
    cbn [bind] in *. by injection Hs as <-.
Qed.

Lemma create_test_instance_agrees_witness :
  (∃ o, create_test_instance Examples.Smoother
          BaseEstimator_get_test_params "default" true
        = Returned (Instance o) ∧
        create_test_instance Examples.Smoother
          BaseEstimator_get_test_params "default" false
        = Returned (Instances [o])) ∧
  create_test_instance Examples.Smoother MoreExamples.no_set "default" true
  = RaisedIndexError "list index out of range".
Proof.
  split.
  - assert (Hchk :
      match create_test_instances_and_names Examples.Smoother
              BaseEstimator_get_test_params "default" with
      | Ok ([_], _) => true
      | _ => false
      end = true) by (vm_compute; reflexivity).
    destruct (create_test_instances_and_names Examples.Smoother
                BaseEstimator_get_test_params "default")
      as [[[|o [|o' objs]] names]|] eqn:H; try discriminate Hchk.
    destruct (create_test_instance_agrees _ _ _ _ _ H) as [H1 H2].
    exists o. split; [exact H2|exact H1].
  - assert (Hchk :
      match create_test_instances_and_names Examples.Smoother
              MoreExamples.no_set "default" with
      | Ok ([], _) => true
      | _ => false
      end = true) by (vm_compute; reflexivity).
    destruct (create_test_instances_and_names Examples.Smoother
                MoreExamples.no_set "default")
      as [[[|o objs] names]|] eqn:H; try discriminate Hchk.
    destruct (create_test_instance_agrees _ _ _ _ _ H) as [_ H2].
    exact H2.
Defined.

(** ** Components and composites *)

Lemma get_params_dom e params :
  sklearn.get_params false e = Ok params →
  dom params = list_to_set (param_names (klass e)).
Proof.
  intros [H1 H2]%get_params_shallow_dom. apply set_eq. intros k.
  rewrite elem_of_dom, elem_of_list_to_set. split.
  - intros [v Hk]. destruct (decide (k ∈ param_names (klass e))); [done|].
    rewrite H2 in Hk; done.
  - apply H1.
Qed.

(** X18: [_components()] returns exactly when [get_params(deep=False)]
    does, and then it holds the instance attributes that are aeon
    estimators, have no double underscore in their name, shadow no name
    of the class and are no hyper-parameters, each with the value the
    attribute has; it is empty when the only estimators among the
    attributes are hyper-parameters. *)
Theorem components_are_owned_estimators e :
  is_ok (_components e) = is_ok (sklearn.get_params false e) ∧
  ∀ c_dict, _components e = Ok c_dict →
    (∀ c comp,
       c_dict !! c = Some comp ↔
       vars e !! c = Some comp ∧ is_aeon_estimator comp = true ∧
       str_contains "__" c = false ∧ (c ∉ cls_attr_names (klass e)) ∧
       c ∉ param_names (klass e)) ∧
    ((∀ c comp, vars e !! c = Some comp → is_aeon_estimator comp = true →
                c ∈ param_names (klass e)) →
     c_dict = ∅).
Proof.
  unfold _components.
  destruct (sklearn.get_params false e) as [params|] eqn:Hp; [|done].
  cbn [bind]. split; [done|]. intros c_dict [= <-].
  assert (H : ∀ c comp,
    filter (λ xy : string * value, is_aeon_estimator xy.2 = true)
      (filter (λ xy : string * value,
                 xy.1 ∈ (filter no_dunder (dir_self e)
                           ∖ dir_type (klass e)) ∖ dom params)
              (vars e)) !! c = Some comp ↔
    vars e !! c = Some comp ∧ is_aeon_estimator comp = true ∧
    str_contains "__" c = false ∧ (c ∉ cls_attr_names (klass e)) ∧
    c ∉ param_names (klass e)).
  { intros c comp. rewrite !map_lookup_filter_Some. cbn [fst snd].
    rewrite (get_params_dom _ _ Hp).
    unfold dir_self, dir_type, no_dunder.
    rewrite !elem_of_difference, elem_of_filter, elem_of_union,
      !elem_of_list_to_set, elem_of_dom.
    split; [naive_solver|]. intros (Hv & ? & ? & ? & ?).
    rewrite Hv. naive_solver. }
  split; [exact H|]. intros Hall. apply map_empty. intros c.
  apply eq_None_not_Some. intros [comp Hc]. apply H in Hc.
  destruct Hc as (Hv & Ha & _ & _ & Hn). apply Hn. by eapply Hall.
Qed.

Lemma components_are_owned_estimators_witness :
  ∃ c_dict,
    _components Examples.pipeline_fitted = Ok c_dict ∧
    c_dict !! "transformer_" = Some (to_value Examples.smoother_fitted) ∧
    c_dict !! "transformer" = None.
Proof.
  destruct (components_are_owned_estimators Examples.pipeline_fitted)
    as [_ H].
  destruct (is_ok_true (_components Examples.pipeline_fitted))
    as [c_dict Hc]; [vm_compute; reflexivity|].
  exists c_dict. split; [exact Hc|]. destruct (H _ Hc) as [Hiff _]. split.
  - apply Hiff. split; [reflexivity|]. split; [reflexivity|].
    split; [reflexivity|]. split; compute_done.
  - destruct (c_dict !! "transformer") as [comp|] eqn:Hl; [|reflexivity].
    apply Hiff in Hl as (_ & _ & _ & _ & Hn). exfalso. apply Hn.
    compute_done.
Defined.

(** X19: [is_composite()] is true exactly when the value of a
    hyper-parameter is an aeon estimator; an estimator held in any other
    attribute does not count; and [reset] leaves the answer as it was. *)
Theorem is_composite_by_parameters e :
  (∀ b, is_composite e = Ok b →
     (b = true ↔
      ∃ k v, k ∈ param_names (klass e) ∧ getattr e k = Ok v ∧
             is_aeon_estimator v = true)) ∧
  (∀ keep e', conforming (klass e) → reset e keep = Ok e' →
     is_composite e' = is_composite e).
Proof.
  split.
  - intros b. unfold is_composite.
    destruct (sklearn.get_params false e) as [params|] eqn:Hp; [|done].
    cbn [bind]. intros [= <-]. rewrite bool_decide_eq_true.
    pose proof Hp as [P1 P2]%get_params_shallow_spec.
    unfold map_Exists. split.
    + intros (k & v & Hk & Hv). exists k, v.
      destruct (decide (k ∈ param_names (klass e))) as [Hin|Hin].
      * destruct (P1 _ Hin) as (v' & Hg & Hv'). split; [done|].
        split; [congruence|done].
      * rewrite (P2 _ Hin) in Hk. done.
    + intros (k & v & Hin & Hg & Hv). exists k, v.
      destruct (P1 _ Hin) as (v' & Hg' & Hv'). split; [congruence|done].
  - intros keep e' Hc Hr.
    pose proof Hr as (params & Hp & _ & He)%reset_spec.
    unfold is_composite. rewrite Hp.
    assert (sklearn.get_params false e' = Ok params) as ->; [|done].
    rewrite He. by apply reset_after_keep.
Qed.

Lemma is_composite_by_parameters_witness :
  is_composite Examples.pipeline_fitted = Ok true ∧
  is_composite MoreExamples.smoother_with_component = Ok false ∧
  ∃ e', reset Examples.pipeline_fitted VNone = Ok e' ∧
        is_composite e' = Ok true.
Proof.
  assert (H1 : is_composite Examples.pipeline_fitted = Ok true)
    by (vm_compute; reflexivity).
  split; [exact H1|]. split; [vm_compute; reflexivity|].
  destruct (is_ok_true (reset Examples.pipeline_fitted VNone))
    as [e' He]; [vm_compute; reflexivity|].
  exists e'. split; [exact He|].
  destruct (is_composite_by_parameters Examples.pipeline_fitted) as [_ H].
  rewrite (H VNone e'); [exact H1|compute_done|exact He].
Defined.

(** ** The loop of [get_fitted_params] *)

Lemma sklearn_loop_more_rounds n self old fitted_params r :
  sklearn_loop n self old fitted_params = Some r →
  ∀ n', n ≤ n' → sklearn_loop n' self old fitted_params = Some r.
Proof.
  revert old fitted_params.
  induction n as [|n IH]; intros old fp; [done|].
  intros H [|n'] Hle; [lia|]. simpl in *.
  destruct (bool_decide (0 < size (sklearn_pass self old))); [|done].
  apply IH; [done|lia].
Qed.

(** X20: the [while] loop of [get_fitted_params] ends: every pass
    collects values nested strictly deeper than those of the pass
    before, so that it ends within as many passes as the values of the
    first mapping are deep, plus one, with the same result whatever
    larger bound is put on the passes; it only ever adds keys. *)
Theorem fitted_params_loop_ends self old fitted_params :
  ∃ r, (∀ rounds, map_depth old < rounds →
          sklearn_loop rounds self old fitted_params = Some r) ∧
       dom fitted_params ⊆ dom r.
Proof.
  destruct (sklearn_loop_terminates (S (map_depth old)) self old
              fitted_params) as [r Hr]; [lia|].
  exists r. split.
  - intros rounds Hlt. apply (sklearn_loop_more_rounds _ _ _ _ _ Hr). lia.
  - by eapply sklearn_loop_dom.
Qed.

(** ** The store-level model: reading the tags changes nothing *)

Module StoreFrame.
Import Store StoreFacts StoreTags.


End StoreFrame.


(** ** When [save] fails *)









